(** * PAT scheme toolkit: SEC / ESCert calculators and the diff-in-diff model

    A shallow embedding of [pat_scheme/calculator.py] and
    [pat_scheme/models.py].  Python's [float] is IEEE-754 binary64, which is
    exactly Rocq's primitive [float]; Python's unbounded [int] is [Z].
    Arguments annotated [float] are floats; the integer literals the source
    mixes into float arithmetic ([100], [1], [0]) are the floats of the same
    value, as Python converts them.  A raised exception is the left
    injection of a sum.  The builtins [round] and [hash] are modelled after
    CPython; NumPy's generator and reductions are parameters. *)

From Stdlib Require Import ZArith List String Ascii Bool Lia.
From Stdlib Require Import Floats.
Import ListNotations.

Set Warnings "-inexact-float".

Local Open Scope float_scope.

(** ** Python runtime: exceptions and float operators *)

Inductive py_error : Type :=
| ZeroDivisionError
| ValueError
| IndexError.

Definition result (A : Type) : Type := (py_error + A)%type.

Definition ret {A : Type} (a : A) : result A := inr a.

Definition bind {A B : Type} (m : result A) (k : A -> result B) : result B :=
  match m with
  | inl e => inl e
  | inr a => k a
  end.

Notation "x <- m ;; k" := (bind m (fun x => k))
  (at level 61, m at next level, right associativity).

(** [x / y] on Python floats: raises on a zero divisor (of either sign),
    otherwise the IEEE quotient. *)
Definition truediv (x y : float) : result float :=
  if y =? 0 then inl ZeroDivisionError else ret (x / y).

Notation "x // y" := (truediv x y) (at level 40, left associativity).

(** ** The builtin [round(x, ndigits)] on floats

    CPython prints [x] to the correctly rounded decimal with [ndigits]
    places (ties on the exact binary value go to the even digit) and reads
    that decimal back as the nearest double.  Non-finite values and zeros
    round to themselves; above 323 places every double is unchanged. *)

Definition NDIGITS_MAX : N := 323.

(** [num * 2^e] rounded to the nearest integer, ties to even. *)
Definition round_half_even (num e : Z) : Z :=
  match e with
  | Zneg p =>
      let d := Z.pow_pos 2 p in
      let q := Z.div num d in
      let r := Z.modulo num d in
      match Z.compare (2 * r) d with
      | Lt => q
      | Gt => Z.succ q
      | Eq => if Z.even q then q else Z.succ q
      end
  | _ => (num * 2 ^ e)%Z
  end.

(** The source passes only the literals 0, 1, 2 and 3 for [ndigits], so the
    model takes a natural number of places. *)
Definition py_round (x : float) (ndigits : N) : float :=
  if (NDIGITS_MAX <? ndigits)%N then x
  else
    match Prim2SF x with
    | S754_finite s m e =>
        let p := Z.to_pos (10 ^ Z.of_N ndigits) in
        match round_half_even (Zpos (m * p)) e with
        | Zpos q =>
            SF2Prim (SFdiv prec emax (S754_finite s q 0) (S754_finite false p 0))
        | _ => SF2Prim (S754_zero s)
        end
    | _ => x
    end.

(** ** [pat_scheme/data.py]: conversion constants *)

Definition CO2_FACTOR : float := 0.07.
Definition MMBTU_TO_TOE : float := 41.868.

(** ** [pat_scheme/calculator.py] *)

Module SECResult.
Record t : Type := mk {
  current_sec : float;
  baseline_sec : float;
  target_sec : float;
  reduction_pct : float;
  is_compliant : bool;
  energy_savings_mmbtu : float;
  co2_avoided_tonnes : float
}.
End SECResult.

Definition calculate_sec
    (total_energy_mmbtu crude_throughput_mt baseline_sec
     target_reduction_pct capacity_utilization : float) : result SECResult.t :=
  current_sec <- total_energy_mmbtu // crude_throughput_mt ;;
  pct <- target_reduction_pct // 100 ;;
  let target_sec := baseline_sec * (1 - pct) in
  ratio <- (baseline_sec - current_sec) // baseline_sec ;;
  let reduction_pct := ratio * 100 in
  let energy_savings := (baseline_sec - current_sec) * crude_throughput_mt in
  let co2_avoided := energy_savings * CO2_FACTOR in
  ret (SECResult.mk
         (py_round current_sec 3)
         baseline_sec
         (py_round target_sec 3)
         (py_round reduction_pct 2)
         (current_sec <? target_sec)
         (py_round energy_savings 0)
         (py_round co2_avoided 0)).

(** Default arguments of [calculate_sec]. *)
Definition default_baseline_sec : float := 8.33.
Definition default_target_reduction_pct : float := 5.0.
Definition default_capacity_utilization : float := 0.85.

Module ESCertResult.
Record t : Type := mk {
  is_generator : bool;
  escerts_toe : float;
  value_inr : float;
  value_usd : float;
  breakeven_sec : option float
}.
End ESCertResult.

Definition calculate_escerts
    (current_sec target_sec capacity_mmtpa escert_price_inr
     usd_inr_rate utilization : float) : result ESCertResult.t :=
  let overachievement := target_sec - current_sec in
  let annual_throughput := capacity_mmtpa * 1e6 * utilization in
  escerts_toe <- (overachievement * annual_throughput) // MMBTU_TO_TOE ;;
  let value_inr := escerts_toe * escert_price_inr in
  value_usd <- value_inr // usd_inr_rate ;;
  ret (ESCertResult.mk
         (0 <? overachievement)
         (py_round escerts_toe 0)
         (py_round value_inr 0)
         (py_round value_usd 0)
         (if overachievement <? 0 then Some target_sec else None)).

(** Default arguments of [calculate_escerts]. *)
Definition default_escert_price_inr : float := 4000.
Definition default_usd_inr_rate : float := 83.0.
Definition default_utilization : float := 0.85.

(** One row of the refinery DataFrame, with the columns the functions read.
    A DataFrame is the list of its rows in index order. *)
Module Row.
Record t : Type := mk {
  refinery : string;
  capacity_mmtpa : float;
  pat_cycle_entry : Z;
  baseline_sec : float;
  current_sec : float;
  target_sec : float
}.
End Row.

(** An entry of the ['positions'] list. *)
Module Position.
Record t : Type := mk {
  refinery : string;
  escerts_toe : float;
  value_inr_cr : float
}.
End Position.

(** The dict returned by [calculate_portfolio_escerts]. *)
Module Portfolio.
Record t : Type := mk {
  total_generated_toe : float;
  total_required_toe : float;
  net_balance_toe : float;
  market_value_inr_cr : float;
  is_surplus : bool;
  positions : list Position.t
}.
End Portfolio.

(** The three variables the loop of [calculate_portfolio_escerts] updates.
    The totals start as the integer 0, which float addition treats as 0.0. *)
Record portfolio_acc : Type := mk_acc {
  total_generated : float;
  total_required : float;
  refinery_positions : list Position.t
}.

(** A [for] loop over the rows whose body may raise. *)
Fixpoint for_rows {S : Type} (body : S -> Row.t -> result S)
    (rows : list Row.t) (acc : S) : result S :=
  match rows with
  | [] => ret acc
  | row :: rest => acc' <- body acc row ;; for_rows body rest acc'
  end.

Definition portfolio_body (escert_price_inr : float)
    (acc : portfolio_acc) (row : Row.t) : result portfolio_acc :=
  r <- calculate_escerts (Row.current_sec row) (Row.target_sec row)
         (Row.capacity_mmtpa row) escert_price_inr
         default_usd_inr_rate default_utilization ;;
  let entry :=
    Position.mk (Row.refinery row) (ESCertResult.escerts_toe r)
                (ESCertResult.value_inr r / 1e7) in
  ret (if ESCertResult.is_generator r
       then mk_acc (total_generated acc + ESCertResult.escerts_toe r)
                   (total_required acc)
                   (refinery_positions acc ++ [entry])
       else mk_acc (total_generated acc)
                   (total_required acc + abs (ESCertResult.escerts_toe r))
                   (refinery_positions acc ++ [entry])).

Definition calculate_portfolio_escerts (refineries_df : list Row.t)
    (escert_price_inr : float) : result Portfolio.t :=
  acc <- for_rows (portfolio_body escert_price_inr) refineries_df
           (mk_acc 0 0 []) ;;
  let net_balance := total_generated acc - total_required acc in
  ret (Portfolio.mk
         (total_generated acc)
         (total_required acc)
         net_balance
         (abs net_balance * escert_price_inr / 1e7)
         (0 <? net_balance)
         (refinery_positions acc)).

(** ** [pat_scheme/models.py] *)

Module DiffInDiffCoefficients.
Record t : Type := mk {
  avg_treatment_effect : float;
  std_error : float;
  early_entrant_effect : float;
  late_entrant_effect : float;
  large_refinery_adj : float;
  r_squared : float;
  n_observations : Z
}.
End DiffInDiffCoefficients.

(** The global model instance, built from the dataclass defaults. *)
Definition MODEL : DiffInDiffCoefficients.t :=
  DiffInDiffCoefficients.mk (-0.241) 0.171 (-0.518) (-0.022) 0.085 0.843 117.

Definition predict_sec_reduction (pat_cycle_entry : Z) (capacity_mmtpa : float)
    (model : DiffInDiffCoefficients.t) : float :=
  let base_effect :=
    if (pat_cycle_entry <=? 2)%Z
    then abs (DiffInDiffCoefficients.early_entrant_effect model) * 100
    else abs (DiffInDiffCoefficients.late_entrant_effect model) * 100 in
  let size_adj :=
    if 10 <? capacity_mmtpa
    then - DiffInDiffCoefficients.large_refinery_adj model * 100
    else 0 in
  base_effect + size_adj.

(** An entry of the list returned by [batch_compliance_forecast]. *)
Module Forecast.
Record t : Type := mk {
  refinery : string;
  baseline_sec : float;
  target_sec : float;
  predicted_sec : float;
  predicted_reduction_pct : float;
  compliance_probability : float;
  ci_lower : float;
  ci_upper : float;
  status : string
}.
End Forecast.

(** *** NumPy and the interpreter

    The simulation draws from NumPy's process-wide generator.  The generator,
    the reductions over arrays and the interpreter's string hash are not part
    of this repository; they are the parameters of this section.  What the
    model fixes is how the source drives them: the generator state is
    threaded through every call, and [np.random.seed] replaces it. *)
Section Simulation.

Variable rng_state : Type.

(** State installed by [np.random.seed] for a seed in range. *)
Variable mt_init : Z -> rng_state.

(** [np.random.normal(loc, scale, size)]: the draws and the advanced state,
    or the exception NumPy raises (negative [scale] or [size]). *)
Variable np_random_normal :
  float -> float -> Z -> rng_state -> result (list float * rng_state).

(** [a.mean()] of a boolean array and [np.percentile(a, q)]. *)
Variable np_mean : list bool -> float.
Variable np_percentile : list float -> float -> result float.

(** [round] applied to a NumPy scalar dispatches to NumPy's own rounding. *)
Variable np_round : float -> N -> float.

(** [hash] of a [str]; one fixed function for the life of an interpreter
    process. *)
Variable hash : string -> Z.

(** Computations that read and update the global generator and may raise. *)
Definition sim (A : Type) : Type := rng_state -> result (A * rng_state).

Definition sim_ret {A : Type} (a : A) : sim A := fun st => ret (a, st).

Definition sim_bind {A B : Type} (m : sim A) (k : A -> sim B) : sim B :=
  fun st =>
    match m st with
    | inl e => inl e
    | inr (a, st') => k a st'
    end.

Definition lift {A : Type} (m : result A) : sim A :=
  fun st =>
    match m with
    | inl e => inl e
    | inr a => ret (a, st)
    end.

(** What the caller observes: the returned value, without the generator. *)
Definition observe {A : Type} (m : result (A * rng_state)) : result A :=
  match m with
  | inl e => inl e
  | inr (a, _) => inr a
  end.

(** [np.random.seed(seed)]: legacy seeding accepts 0 .. 2**32 - 1. *)
Definition np_random_seed (seed : Z) : sim unit :=
  fun _ =>
    if ((0 <=? seed) && (seed <? 2 ^ 32))%Z
    then ret (tt, mt_init seed)
    else inl ValueError.

Definition monte_carlo_compliance
    (baseline_sec target_sec predicted_reduction_pct : float)
    (n_simulations : Z) (std_error_pct : float) (seed : option Z)
    : sim (float * float * float * list float) :=
  sim_bind (match seed with
            | Some s => np_random_seed s
            | None => sim_ret tt
            end) (fun _ =>
  sim_bind (np_random_normal predicted_reduction_pct std_error_pct n_simulations)
    (fun simulated_effects =>
  let simulated_secs :=
    map (fun e => baseline_sec * (1 - e / 100)) simulated_effects in
  let compliance_prob :=
    np_mean (map (fun s => s <? target_sec) simulated_secs) * 100 in
  sim_bind (lift (np_percentile simulated_secs 2.5)) (fun ci_lower =>
  sim_bind (lift (np_percentile simulated_secs 97.5)) (fun ci_upper =>
  sim_ret (compliance_prob, ci_lower, ci_upper, simulated_secs))))).

(** Default arguments of [monte_carlo_compliance]. *)
Definition default_n_simulations : Z := 10000.
Definition default_std_error_pct : float := 17.1.

(** The seed expression [hash(row['refinery']) % 2**32]. *)
Definition row_seed (row : Row.t) : Z := (hash (Row.refinery row) mod 2 ^ 32)%Z.

(** The body of the loop of [batch_compliance_forecast]: the dict appended
    for one row. *)
Definition forecast_row (row : Row.t) : sim Forecast.t :=
  let pred_reduction :=
    predict_sec_reduction (Row.pat_cycle_entry row) (Row.capacity_mmtpa row)
      MODEL in
  sim_bind (lift (pred_reduction // 100)) (fun q =>
  let pred_sec := Row.baseline_sec row * (1 - q) in
  sim_bind (monte_carlo_compliance (Row.baseline_sec row) (Row.target_sec row)
              pred_reduction 5000 default_std_error_pct (Some (row_seed row)))
    (fun '(prob, ci_low, ci_high, _) =>
  sim_ret (Forecast.mk
             (Row.refinery row)
             (Row.baseline_sec row)
             (Row.target_sec row)
             (py_round pred_sec 2)
             (py_round pred_reduction 1)
             (np_round prob 1)
             (np_round ci_low 2)
             (np_round ci_high 2)
             (if 70 <=? prob then "High"%string
              else if 40 <=? prob then "Medium"%string
              else "At Risk"%string)))).

Fixpoint batch_loop (rows : list Row.t) (results : list Forecast.t)
    : sim (list Forecast.t) :=
  match rows with
  | [] => sim_ret results
  | row :: rest =>
      sim_bind (forecast_row row) (fun entry =>
      batch_loop rest (results ++ [entry]))
  end.

Definition batch_compliance_forecast (refineries_df : list Row.t)
    : sim (list Forecast.t) :=
  batch_loop refineries_df [].

End Simulation.

Arguments sim_ret {rng_state A} a _.
Arguments sim_bind {rng_state A B} m k _.
Arguments lift {rng_state A} m _.
Arguments observe {rng_state A} m.
Arguments np_random_seed {rng_state} mt_init seed _.
Arguments monte_carlo_compliance {rng_state} mt_init np_random_normal np_mean
  np_percentile baseline_sec target_sec predicted_reduction_pct n_simulations
  std_error_pct seed _.
Arguments forecast_row {rng_state} mt_init np_random_normal np_mean
  np_percentile np_round hash row _.
Arguments batch_loop {rng_state} mt_init np_random_normal np_mean
  np_percentile np_round hash rows results _.
Arguments batch_compliance_forecast {rng_state} mt_init np_random_normal
  np_mean np_percentile np_round hash refineries_df _.

(** ** The interpreter's [hash] of a [str] (CPython 3.11)

    [hash] of a string is SipHash-1-3 of its character buffer, keyed by a
    secret the interpreter draws when it starts: at random by default, from
    the environment variable PYTHONHASHSEED when that is set.  For the
    ASCII identifiers of [data.py] the buffer has one byte per character.
    64-bit words are [Z] reduced modulo 2^64. *)

Definition u64 (x : Z) : Z := (x mod 2 ^ 64)%Z.

Definition ROTATE (x b : Z) : Z :=
  u64 (Z.lor (Z.shiftl x b) (Z.shiftr x (64 - b))).

Definition HALF_ROUND (a b c d s t : Z) : Z * Z * Z * Z :=
  let a := u64 (a + b) in
  let c := u64 (c + d) in
  let b := Z.lxor (ROTATE b s) a in
  let d := Z.lxor (ROTATE d t) c in
  let a := ROTATE a 32 in
  (a, b, c, d).

Definition SINGLE_ROUND (v : Z * Z * Z * Z) : Z * Z * Z * Z :=
  let '(v0, v1, v2, v3) := v in
  let '(v0, v1, v2, v3) := HALF_ROUND v0 v1 v2 v3 13 16 in
  let '(v2, v1, v0, v3) := HALF_ROUND v2 v1 v0 v3 17 21 in
  (v0, v1, v2, v3).

(** Little-endian value of a run of bytes. *)
Fixpoint le64 (bytes : list Z) : Z :=
  match bytes with
  | [] => 0%Z
  | b :: rest => (b + 256 * le64 rest)%Z
  end.

(** The loop over whole 8-byte words; returns the state and the bytes left. *)
Fixpoint sip_blocks (v : Z * Z * Z * Z) (src : list Z)
    : (Z * Z * Z * Z) * list Z :=
  match src with
  | b0 :: b1 :: b2 :: b3 :: b4 :: b5 :: b6 :: b7 :: rest =>
      let mi := le64 [b0; b1; b2; b3; b4; b5; b6; b7] in
      let '(v0, v1, v2, v3) := v in
      let '(v0, v1, v2, v3) := SINGLE_ROUND (v0, v1, v2, Z.lxor v3 mi) in
      sip_blocks (Z.lxor v0 mi, v1, v2, v3) rest
  | tail => (v, tail)
  end.

Definition siphash13 (k0 k1 : Z) (src : list Z) : Z :=
  let b := u64 (Z.shiftl (Z.of_nat (List.length src)) 56) in
  let v := (Z.lxor k0 0x736f6d6570736575, Z.lxor k1 0x646f72616e646f6d,
            Z.lxor k0 0x6c7967656e657261, Z.lxor k1 0x7465646279746573) in
  let '(v, tail) := sip_blocks v src in
  let b := Z.lor b (le64 tail) in
  let '(v0, v1, v2, v3) := v in
  let '(v0, v1, v2, v3) := SINGLE_ROUND (v0, v1, v2, Z.lxor v3 b) in
  let v0 := Z.lxor v0 b in
  let v2 := Z.lxor v2 0xff in
  let '(v0, v1, v2, v3) :=
    SINGLE_ROUND (SINGLE_ROUND (SINGLE_ROUND (v0, v1, v2, v3))) in
  Z.lxor (Z.lxor v0 v1) (Z.lxor v2 v3).

(** The secret derived from a non-zero PYTHONHASHSEED: 24 bytes of a linear
    congruential generator, of which the first 16 are the two key words.
    PYTHONHASHSEED=0 gives the all-zero secret. *)
Fixpoint lcg_urandom (x : Z) (size : nat) : list Z :=
  match size with
  | O => []
  | S n =>
      let x := ((x * 214013 + 2531011) mod 2 ^ 32)%Z in
      Z.land (Z.shiftr x 16) 0xff :: lcg_urandom x n
  end.

Definition hash_secret (pythonhashseed : Z) : Z * Z :=
  if (pythonhashseed =? 0)%Z then (0%Z, 0%Z)
  else
    let buffer := lcg_urandom pythonhashseed 24 in
    (le64 (firstn 8 buffer), le64 (firstn 8 (skipn 8 buffer))).

Definition str_bytes (s : string) : list Z :=
  map (fun c => Z.of_N (N_of_ascii c)) (list_ascii_of_string s).

(** [hash(s)]: zero for the empty string, otherwise the keyed hash read as
    a signed 64-bit integer, with -1 replaced by -2. *)
Definition str_hash (secret : Z * Z) (s : string) : Z :=
  match str_bytes s with
  | [] => 0%Z
  | src =>
      let x := siphash13 (fst secret) (snd secret) src in
      let x := if (2 ^ 63 <=? x)%Z then (x - 2 ^ 64)%Z else x in
      if (x =? -1)%Z then (-2)%Z else x
  end.

(** The first refinery of [get_refinery_data]. *)
Definition IOCL_Panipat : Row.t := Row.mk "IOCL Panipat" 15.0 1 8.2 6.4 7.8.

(** ** Closed forms used to state the properties *)

(** The record [calculate_escerts] builds when its last division succeeds. *)
Definition escert_record
    (cur tgt cap price usd util : float) : ESCertResult.t :=
  let escerts_toe := (tgt - cur) * (cap * 1e6 * util) / MMBTU_TO_TOE in
  ESCertResult.mk
    (0 <? tgt - cur)
    (py_round escerts_toe 0)
    (py_round (escerts_toe * price) 0)
    (py_round (escerts_toe * price / usd) 0)
    (if tgt - cur <? 0 then Some tgt else None).

(** The certificate result of one row under the default exchange rate and
    utilization, and the entry appended to ['positions'] for it. *)
Definition row_escerts (price : float) (row : Row.t) : ESCertResult.t :=
  escert_record (Row.current_sec row) (Row.target_sec row)
    (Row.capacity_mmtpa row) price default_usd_inr_rate default_utilization.

Definition row_position (price : float) (row : Row.t) : Position.t :=
  Position.mk (Row.refinery row)
    (ESCertResult.escerts_toe (row_escerts price row))
    (ESCertResult.value_inr (row_escerts price row) / 1e7).

(** Running totals of the loop, in iteration order. *)
Definition generated_sum (price : float) (rows : list Row.t) (init : float)
    : float :=
  fold_left
    (fun t row =>
       if ESCertResult.is_generator (row_escerts price row)
       then t + ESCertResult.escerts_toe (row_escerts price row)
       else t)
    rows init.

Definition required_sum (price : float) (rows : list Row.t) (init : float)
    : float :=
  fold_left
    (fun t row =>
       if ESCertResult.is_generator (row_escerts price row)
       then t
       else t + abs (ESCertResult.escerts_toe (row_escerts price row)))
    rows init.

(** A batch of three refineries; the second has a negative capacity. *)
Definition refinery_A : Row.t := Row.mk "A" 10.0 1 8.2 6.5 7.5.
Definition refinery_B : Row.t := Row.mk "B" (-5.0) 1 8.2 6.5 7.5.
Definition refinery_C : Row.t := Row.mk "C" 8.0 3 8.6 7.9 7.4.

(** Mapping a fallible function over a list, stopping at the first error. *)
Fixpoint map_result {A B : Type} (f : A -> result B) (l : list A)
    : result (list B) :=
  match l with
  | [] => ret []
  | a :: rest => b <- f a ;; bs <- map_result f rest ;; ret (b :: bs)
  end.

(** A toy generator, to run the simulation on: the state is a counter, and
    a draw is [loc + scale * counter]. *)
Definition toy_init (seed : Z) : Z := seed.

Definition toy_normal (loc scale : float) (size : Z) (st : Z)
    : result (list float * Z) :=
  if (size <? 0)%Z then inl ValueError
  else ret (map (fun i => loc + scale * of_uint63 (Uint63.of_Z (st + Z.of_nat i)))
                (seq 0 (Z.to_nat size)),
            (st + size)%Z).

Definition toy_mean (bs : list bool) : float :=
  of_uint63 (Uint63.of_Z (Z.of_nat (List.length (filter (fun b => b) bs))))
  / of_uint63 (Uint63.of_Z (Z.of_nat (List.length bs))).

Definition toy_percentile (a : list float) (q : float) : result float :=
  match a with
  | [] => inl IndexError
  | x :: _ => ret (if q <? 50 then x else last a x)
  end.

Definition toy_hash (s : string) : Z := Z.of_nat (String.length s) - 7.

(** ** [pat_scheme/data.py]: derived metrics

    A row of the table built in [get_refinery_data], and the same row after
    [_compute_derived_metrics].  The column operations of the source act
    element by element on float64 columns, so the function is a map over the
    rows; a column division by zero gives an infinity or NaN, it does not
    raise.  [commissioning_year] is an int64 column, whose arithmetic wraps. *)

Module Refinery.
Record t : Type := mk {
  refinery : string;
  capacity_mmtpa : float;
  ownership : string;
  pat_cycle_entry : Z;
  baseline_sec : float;
  current_sec : float;
  target_sec : float;
  commissioning_year : Z
}.
End Refinery.

Module Derived.
Record t : Type := mk {
  base : Refinery.t;
  sec_reduction_pct : float;
  target_reduction_pct : float;
  overachievement_pct : float;
  energy_savings_mmbtu : float;
  co2_avoided_mt : float;
  escert_potential_toe : float;
  refinery_age : Z;
  entry_category : string;
  is_compliant : bool
}.
End Derived.

Definition int64 (x : Z) : Z := ((x + 2 ^ 63) mod 2 ^ 64 - 2 ^ 63)%Z.

Definition derive_row (r : Refinery.t) : Derived.t :=
  let baseline := Refinery.baseline_sec r in
  let current := Refinery.current_sec r in
  let target := Refinery.target_sec r in
  let capacity := Refinery.capacity_mmtpa r in
  let sec_reduction_pct := (baseline - current) / baseline * 100 in
  let target_reduction_pct := (baseline - target) / baseline * 100 in
  let overachievement_pct := sec_reduction_pct - target_reduction_pct in
  let energy_savings_mmbtu := (baseline - current) * capacity * 1e6 * 0.85 in
  Derived.mk r
    sec_reduction_pct
    target_reduction_pct
    overachievement_pct
    energy_savings_mmbtu
    (energy_savings_mmbtu * CO2_FACTOR / 1e6)
    (overachievement_pct * capacity * 1e6 * 0.85 / MMBTU_TO_TOE / 100)
    (int64 (2024 - Refinery.commissioning_year r))
    (if (Refinery.pat_cycle_entry r <=? 2)%Z then "Early" else "Late")%string
    (current <? target).

Definition _compute_derived_metrics (df : list Refinery.t) : list Derived.t :=
  map derive_row df.

(** The columns of a derived row that [calculate_portfolio_escerts] and
    [batch_compliance_forecast] read. *)
Definition row_view (d : Derived.t) : Row.t :=
  Row.mk (Refinery.refinery (Derived.base d))
         (Refinery.capacity_mmtpa (Derived.base d))
         (Refinery.pat_cycle_entry (Derived.base d))
         (Refinery.baseline_sec (Derived.base d))
         (Refinery.current_sec (Derived.base d))
         (Refinery.target_sec (Derived.base d)).

(** ** Shapes of binary64 numbers used to state sign facts *)

Definition SFpositive (r : spec_float) : Prop :=
  match r with
  | S754_finite false _ _ | S754_infinity false => True
  | _ => False
  end.

Definition SFnegative (r : spec_float) : Prop :=
  match r with
  | S754_finite true _ _ | S754_infinity true => True
  | _ => False
  end.

Definition SFnot_negative (r : spec_float) : Prop :=
  match r with
  | S754_finite true _ _ | S754_infinity true => False
  | _ => True
  end.

Definition SFnot_positive (r : spec_float) : Prop :=
  match r with
  | S754_finite false _ _ | S754_infinity false => False
  | _ => True
  end.

(** [s] false asks for a number that is not negative, [s] true for one that
    is not positive. *)
Definition SFsign_ok (s : bool) (r : spec_float) : Prop :=
  if s then SFnot_positive r else SFnot_negative r.

(** Totals of the portfolio loop split by the [is_compliant] column. *)
Definition compliant_sum (price : float) (df : list Derived.t) : float :=
  fold_left
    (fun t d =>
       if Derived.is_compliant d
       then t + ESCertResult.escerts_toe (row_escerts price (row_view d))
       else t)
    df 0.

Definition noncompliant_sum (price : float) (df : list Derived.t) : float :=
  fold_left
    (fun t d =>
       if Derived.is_compliant d
       then t
       else t + abs (ESCertResult.escerts_toe (row_escerts price (row_view d))))
    df 0.

(** The statuses [batch_compliance_forecast] can write. *)
Definition statuses : list string := ["High"; "Medium"; "At Risk"]%string.


(** Two more refineries: one that entered late with a capacity above 10,
    and one whose current SEC is not a number. *)
Definition refinery_D : Row.t := Row.mk "D" 15.0 3 7.5 6.2 7.1.
Definition refinery_N : Row.t := Row.mk "N" 8.0 1 8.2 nan 7.5.

(** * Properties *)

(** ** Order facts for binary64, from the specification of the primitives *)

Lemma SFcompare_Lt_swap (x y : spec_float) :
  SFcompare x y = Some Lt -> SFcompare y x = Some Gt.
Proof.
  destruct x as [sx|sx| |sx mx ex], y as [sy|sy| |sy my ey]; simpl;
    try discriminate;
    try (destruct sx; discriminate || reflexivity);
    try (destruct sy; discriminate || reflexivity);
    try (destruct sx, sy; discriminate || reflexivity).
  destruct sx, sy; try discriminate; try reflexivity;
    rewrite (Z.compare_antisym ex ey);
    destruct (ex ?= ey)%Z; simpl; try discriminate; try reflexivity;
    rewrite !Pos.compare_cont_spec; simpl;
    rewrite (Pos.compare_antisym mx my);
    destruct (mx ?= my)%positive; simpl; discriminate || reflexivity.
Qed.

Lemma ltb_asym (x y : float) : (x <? y) = true -> (y <? x) = false.
Proof.
  rewrite !ltb_spec. unfold SFltb. intros H.
  destruct (SFcompare (Prim2SF x) (Prim2SF y)) as [[| |]|] eqn:E;
    try discriminate.
  now rewrite (SFcompare_Lt_swap _ _ E).
Qed.

Lemma ltb_not_eqb (x y : float) : (x <? y) = true -> (x =? y) = false.
Proof.
  rewrite ltb_spec, eqb_spec. unfold SFltb, SFeqb.
  now destruct (SFcompare (Prim2SF x) (Prim2SF y)) as [[| |]|].
Qed.

Lemma gtb_not_eqb (x y : float) : (y <? x) = true -> (x =? y) = false.
Proof.
  rewrite ltb_spec, eqb_spec. unfold SFltb, SFeqb. intros H.
  destruct (SFcompare (Prim2SF y) (Prim2SF x)) as [[| |]|] eqn:E;
    try discriminate.
  now rewrite (SFcompare_Lt_swap _ _ E).
Qed.

Lemma eqb_not_ltb (x y : float) : (x =? y) = true -> (x <? y) = false.
Proof.
  intros H. destruct (x <? y) eqn:L; [|reflexivity].
  apply ltb_not_eqb in L. congruence.
Qed.

(** ** Sign facts for binary64 arithmetic *)

Lemma binary_round_aux_opp (s : bool) (m e : Z) (l : location) :
  binary_round_aux prec emax (negb s) m e l =
  SFopp (binary_round_aux prec emax s m e l).
Proof.
  unfold binary_round_aux.
  destruct (shr_fexp prec emax m e l) as [mrs' e'].
  destruct (shr_fexp prec emax _ e' loc_Exact) as [mrs'' e''].
  destruct (shr_m mrs''); [reflexivity| |reflexivity].
  now destruct (e'' <=? emax - prec)%Z.
Qed.

Lemma binary_round_aux_zero_sign (s s' : bool) (m e : Z) (l : location) :
  binary_round_aux prec emax s m e l = S754_zero s' -> s' = s.
Proof.
  unfold binary_round_aux.
  destruct (shr_fexp prec emax m e l) as [mrs' e'].
  destruct (shr_fexp prec emax _ e' loc_Exact) as [mrs'' e''].
  destruct (shr_m mrs''); [congruence| |discriminate].
  destruct (e'' <=? emax - prec)%Z; discriminate.
Qed.

Lemma SFmul_opp_l (a b : spec_float) :
  SFmul prec emax (SFopp a) b = SFopp (SFmul prec emax a b).
Proof.
  destruct a as [sa|sa| |sa ma ea], b as [sb|sb| |sb mb eb];
    cbn [SFmul SFopp]; try reflexivity;
    try (now destruct sa, sb).
  rewrite <- binary_round_aux_opp. now destruct sa, sb.
Qed.

Lemma SFadd_opp_r (a b : spec_float) :
  SFadd prec emax a (SFopp b) = SFsub prec emax a b.
Proof.
  destruct a as [sa|sa| |sa ma ea], b as [sb|sb| |sb mb eb];
    cbn [SFadd SFsub SFopp]; try reflexivity;
    try (now destruct sa, sb).
Qed.

Lemma mul_opp_l (a b : float) : - a * b = - (a * b).
Proof.
  apply Prim2SF_inj.
  rewrite mul_spec, !opp_spec, mul_spec. apply SFmul_opp_l.
Qed.

Lemma add_opp_r (x y : float) : x + - y = x - y.
Proof.
  apply Prim2SF_inj.
  rewrite add_spec, opp_spec, sub_spec. apply SFadd_opp_r.
Qed.

Lemma add_zero_r (x : float) : Prim2SF x <> S754_zero true -> x + 0 = x.
Proof.
  intros H. apply Prim2SF_inj. rewrite add_spec.
  change (Prim2SF 0) with (S754_zero false). unfold SF64add.
  destruct (Prim2SF x) as [[|]| | |]; try reflexivity. congruence.
Qed.

Lemma abs_mul_100_sign (e : float) : Prim2SF (abs e * 100) <> S754_zero true.
Proof.
  rewrite mul_spec, abs_spec. unfold SF64mul.
  change (Prim2SF 100) with (S754_finite false 7036874417766400 (-46)).
  destruct (Prim2SF e) as [se|se| |se me ee]; cbn [SFabs SFmul xorb];
    try discriminate.
  intros H. apply binary_round_aux_zero_sign in H. discriminate.
Qed.

(** ** Division as the source uses it *)

Lemma truediv_ok (x y : float) : (y =? 0) = false -> x // y = inr (x / y).
Proof. intros H. unfold truediv. now rewrite H. Qed.

Lemma truediv_zero (x y : float) :
  (y =? 0) = true -> x // y = inl ZeroDivisionError.
Proof. intros H. unfold truediv. now rewrite H. Qed.

Lemma truediv_100 (x : float) : x // 100 = inr (x / 100).
Proof. reflexivity. Qed.

Lemma truediv_MMBTU_TO_TOE (x : float) :
  x // MMBTU_TO_TOE = inr (x / MMBTU_TO_TOE).
Proof. reflexivity. Qed.

(** ** [calculate_sec] *)

(** What [calculate_sec] returns once both divisors are non-zero. *)
Lemma calculate_sec_value (total thr base pct util : float) :
  (thr =? 0) = false -> (base =? 0) = false ->
  calculate_sec total thr base pct util =
  inr (SECResult.mk
         (py_round (total / thr) 3)
         base
         (py_round (base * (1 - pct / 100)) 3)
         (py_round ((base - total / thr) / base * 100) 2)
         (total / thr <? base * (1 - pct / 100))
         (py_round ((base - total / thr) * thr) 0)
         (py_round ((base - total / thr) * thr * CO2_FACTOR) 0)).
Proof.
  intros Ht Hb. unfold calculate_sec.
  rewrite (truediv_ok _ _ Ht), truediv_100. cbn [bind].
  rewrite (truediv_ok _ _ Hb). reflexivity.
Qed.

(** C1, as stated, fails: the [current_sec] of the result is the quotient
    rounded to three places, so for 1 / 3 it is 0.333 and not the quotient;
    the flag compares the unrounded values, so 7.9131 against the target
    8.33 * 0.95 is compliant although both are returned as 7.913; and a
    positive throughput with a zero baseline raises. *)
Lemma calculate_sec_current_not_quotient :
  (0 <? 3) = true /\
  (exists r, calculate_sec 1 3 8.33 5.0 0.85 = inr r /\
             SECResult.current_sec r = 0.333 /\
             (SECResult.current_sec r =? 1 / 3) = false /\
             SECResult.current_sec r <> 1 / 3) /\
  (exists r, calculate_sec 79131 10000 8.33 5.0 0.85 = inr r /\
             SECResult.current_sec r = 7.913 /\
             SECResult.target_sec r = 7.913 /\
             SECResult.is_compliant r = true) /\
  calculate_sec 1 3 0 5.0 0.85 = inl ZeroDivisionError.
Proof.
  split; [reflexivity|]. split; [|split; [|reflexivity]].
  - eexists. split; [vm_compute; reflexivity|]. cbn [SECResult.current_sec].
    split; [reflexivity|]. split; [reflexivity|].
    intros H.
    assert (E : (0.333 =? 1 / 3) = false) by reflexivity.
    rewrite H in E. vm_compute in E. discriminate.
  - eexists. split; [vm_compute; reflexivity|]. repeat split.
Qed.

(** C1, amended: for a positive throughput and a non-zero baseline,
    [calculate_sec] returns a result whose [current_sec] is
    [total / throughput] rounded to three places, whose [is_compliant] is the
    strict comparison of the unrounded quotient with the unrounded target
    [baseline * (1 - pct / 100)], false when the two are equal; and the
    scenario 85000000 / 10000000 with baseline 8.33 gives [current_sec = 8.5]
    and [is_compliant = false]. *)
Theorem calculate_sec_metric :
  (forall total thr base pct util : float,
     (0 <? thr) = true -> (base =? 0) = false ->
     exists r,
       calculate_sec total thr base pct util = inr r /\
       SECResult.current_sec r = py_round (total / thr) 3 /\
       SECResult.is_compliant r = (total / thr <? base * (1 - pct / 100)) /\
       ((total / thr =? base * (1 - pct / 100)) = true ->
        SECResult.is_compliant r = false)) /\
  (exists r,
     calculate_sec 85000000 10000000 8.33 default_target_reduction_pct
       default_capacity_utilization = inr r /\
     SECResult.current_sec r = 8.5 /\
     SECResult.is_compliant r = false).
Proof.
  split.
  - intros total thr base pct util Hpos Hb.
    eexists. split.
    + apply calculate_sec_value; [now apply gtb_not_eqb | exact Hb].
    + cbn [SECResult.current_sec SECResult.is_compliant].
      repeat split. apply eqb_not_ltb.
  - eexists. split; [vm_compute; reflexivity|]. split; reflexivity.
Qed.

Lemma calculate_sec_metric_witness :
  (0 <? 10000000) = true /\ (7.9 =? 0) = false /\
  exists r,
    calculate_sec 79000000 10000000 7.9 0 0.85 = inr r /\
    SECResult.current_sec r = py_round (79000000 / 10000000) 3 /\
    SECResult.is_compliant r = (79000000 / 10000000 <? 7.9 * (1 - 0 / 100)) /\
    ((79000000 / 10000000 =? 7.9 * (1 - 0 / 100)) = true ->
     SECResult.is_compliant r = false).
Proof.
  split; [reflexivity|]. split; [reflexivity|].
  apply (proj1 calculate_sec_metric 79000000 10000000 7.9 0 0.85);
    reflexivity.
Defined.

(** C2, as stated, fails: a negative throughput is not rejected, and a
    positive throughput still raises when the baseline is zero. *)
Lemma calculate_sec_negative_throughput_returns :
  (-1 <=? 0) = true /\
  (exists r, calculate_sec 1 (-1) 8.33 5.0 0.85 = inr r /\
             SECResult.current_sec r = -1) /\
  (0 <? 1) = true /\
  calculate_sec 1 1 0 5.0 0.85 = inl ZeroDivisionError.
Proof.
  split; [reflexivity|]. split.
  - eexists. split; [vm_compute; reflexivity | reflexivity].
  - split; reflexivity.
Qed.

(** C2, amended: [calculate_sec] has no check of its own; it raises exactly
    when the throughput or the baseline is zero, and what it raises is
    Python's ZeroDivisionError.  For any other input, a negative throughput
    included, it returns a result. *)
Theorem calculate_sec_raises (total thr base pct util : float) :
  (calculate_sec total thr base pct util = inl ZeroDivisionError <->
   (thr =? 0) = true \/ (base =? 0) = true) /\
  (forall e, calculate_sec total thr base pct util = inl e ->
             e = ZeroDivisionError) /\
  ((thr =? 0) = false -> (base =? 0) = false ->
   exists r, calculate_sec total thr base pct util = inr r) /\
  ((thr <? 0) = true -> (base =? 0) = false ->
   exists r, calculate_sec total thr base pct util = inr r).
Proof.
  assert (Hz : (thr =? 0) = true ->
               calculate_sec total thr base pct util = inl ZeroDivisionError).
  { intros H. unfold calculate_sec. now rewrite (truediv_zero _ _ H). }
  assert (Hb : (thr =? 0) = false -> (base =? 0) = true ->
               calculate_sec total thr base pct util = inl ZeroDivisionError).
  { intros Ht H. unfold calculate_sec.
    rewrite (truediv_ok _ _ Ht), truediv_100. cbn [bind].
    now rewrite (truediv_zero _ _ H). }
  repeat split.
  - intros H. destruct (thr =? 0) eqn:Ht; [now left|].
    destruct (base =? 0) eqn:Hb0; [now right|].
    rewrite (calculate_sec_value _ _ _ _ _ Ht Hb0) in H. discriminate.
  - intros [H|H]; [now apply Hz|].
    destruct (thr =? 0) eqn:Ht; [now apply Hz | now apply Hb].
  - intros e H. destruct (thr =? 0) eqn:Ht.
    + rewrite (Hz eq_refl) in H. congruence.
    + destruct (base =? 0) eqn:Hb0.
      * rewrite (Hb eq_refl eq_refl) in H. congruence.
      * rewrite (calculate_sec_value _ _ _ _ _ Ht Hb0) in H. discriminate.
  - intros Ht Hb0. eexists. now apply calculate_sec_value.
  - intros Hneg Hb0. eexists. apply calculate_sec_value; [|exact Hb0].
    now apply ltb_not_eqb.
Qed.

Lemma calculate_sec_raises_witness :
  (-10000000 <? 0) = true /\ (8.33 =? 0) = false /\
  exists r, calculate_sec 85000000 (-10000000) 8.33 5.0 0.85 = inr r.
Proof.
  split; [reflexivity|]. split; [reflexivity|].
  apply (proj2 (proj2 (proj2
           (calculate_sec_raises 85000000 (-10000000) 8.33 5.0 0.85))));
    reflexivity.
Defined.

(** ** [calculate_escerts] *)

(** What [calculate_escerts] returns for a non-zero exchange rate. *)
Lemma calculate_escerts_value (cur tgt cap price usd util : float) :
  (usd =? 0) = false ->
  calculate_escerts cur tgt cap price usd util =
  inr (escert_record cur tgt cap price usd util).
Proof.
  intros H. unfold calculate_escerts.
  rewrite truediv_MMBTU_TO_TOE. cbn [bind].
  rewrite (truediv_ok _ _ H). reflexivity.
Qed.

(** C3, as stated, fails: a non-positive capacity and a negative exchange
    rate are both accepted. *)
Lemma calculate_escerts_nonpositive_inputs_return :
  (-5 <=? 0) = true /\
  (exists r, calculate_escerts 6.5 7.5 (-5) 4000 83.0 0.85 = inr r /\
             ESCertResult.escerts_toe r = -101510) /\
  (-83.0 <=? 0) = true /\
  (exists r, calculate_escerts 6.5 7.5 10.0 4000 (-83.0) 0.85 = inr r /\
             ESCertResult.value_usd r = -9784049).
Proof.
  split; [reflexivity|]. split.
  - eexists. split; [vm_compute; reflexivity | reflexivity].
  - split; [reflexivity|].
    eexists. split; [vm_compute; reflexivity | reflexivity].
Qed.

(** C3, amended: [calculate_escerts] has no check of its own; it raises
    exactly when the exchange rate is zero, with Python's ZeroDivisionError,
    whatever the capacity.  In particular it has no failure mode when the
    capacity and the exchange rate are both positive. *)
Theorem calculate_escerts_raises (cur tgt cap price usd util : float) :
  (calculate_escerts cur tgt cap price usd util = inl ZeroDivisionError <->
   (usd =? 0) = true) /\
  (forall e, calculate_escerts cur tgt cap price usd util = inl e ->
             e = ZeroDivisionError) /\
  ((usd =? 0) = false ->
   exists r, calculate_escerts cur tgt cap price usd util = inr r) /\
  ((0 <? cap) = true -> (0 <? usd) = true ->
   exists r, calculate_escerts cur tgt cap price usd util = inr r).
Proof.
  assert (Hz : (usd =? 0) = true ->
               calculate_escerts cur tgt cap price usd util =
               inl ZeroDivisionError).
  { intros H. unfold calculate_escerts.
    rewrite truediv_MMBTU_TO_TOE. cbn [bind].
    now rewrite (truediv_zero _ _ H). }
  repeat split.
  - intros H. destruct (usd =? 0) eqn:Hu; [reflexivity|].
    rewrite (calculate_escerts_value _ _ _ _ _ _ Hu) in H. discriminate.
  - exact Hz.
  - intros e H. destruct (usd =? 0) eqn:Hu.
    + rewrite (Hz eq_refl) in H. congruence.
    + rewrite (calculate_escerts_value _ _ _ _ _ _ Hu) in H. discriminate.
  - intros Hu. eexists. now apply calculate_escerts_value.
  - intros _ Hu. eexists. apply calculate_escerts_value.
    now apply gtb_not_eqb.
Qed.

Lemma calculate_escerts_raises_witness :
  (0 <? 10.0) = true /\ (0 <? 83.0) = true /\
  exists r, calculate_escerts 6.5 7.5 10.0 4000 83.0 0.85 = inr r.
Proof.
  split; [reflexivity|]. split; [reflexivity|].
  apply (proj2 (proj2 (proj2
           (calculate_escerts_raises 6.5 7.5 10.0 4000 83.0 0.85))));
    reflexivity.
Defined.

(** C4, as stated, fails: at an overachievement of exactly zero the facility
    is not a generator and yet no break-even value is set. *)
Lemma calculate_escerts_neutral_has_no_breakeven :
  exists r, calculate_escerts 7.5 7.5 10.0 4000 83.0 0.85 = inr r /\
            ESCertResult.is_generator r = false /\
            ESCertResult.breakeven_sec r = None.
Proof.
  eexists. split; [vm_compute; reflexivity|]. split; reflexivity.
Qed.

(** C4, amended: whenever [calculate_escerts] returns, [is_generator] is
    [target - current > 0] (so false at exactly 0), and [breakeven_sec] is
    the target when [target - current < 0] and absent otherwise.  Hence a
    break-even value implies a non-generator, but not conversely: at an
    overachievement of exactly 0 both are off. *)
Theorem calculate_escerts_flags (cur tgt cap price usd util : float) :
  (usd =? 0) = false ->
  exists r,
    calculate_escerts cur tgt cap price usd util = inr r /\
    ESCertResult.is_generator r = (0 <? tgt - cur) /\
    ESCertResult.breakeven_sec r =
      (if tgt - cur <? 0 then Some tgt else None) /\
    (ESCertResult.breakeven_sec r <> None ->
     ESCertResult.is_generator r = false) /\
    (ESCertResult.is_generator r = true ->
     ESCertResult.breakeven_sec r = None) /\
    ((tgt - cur =? 0) = true ->
     ESCertResult.is_generator r = false /\
     ESCertResult.breakeven_sec r = None).
Proof.
  intros Hu. eexists. split; [now apply calculate_escerts_value|].
  cbn [escert_record ESCertResult.is_generator ESCertResult.breakeven_sec].
  split; [reflexivity|]. split; [reflexivity|].
  split; [|split].
  - destruct (tgt - cur <? 0) eqn:L; [|congruence].
    intros _. now apply ltb_asym.
  - intros G. apply ltb_asym in G. now rewrite G.
  - intros Z0. split.
    + destruct (0 <? tgt - cur) eqn:G; [|reflexivity].
      apply gtb_not_eqb in G. congruence.
    + now rewrite (eqb_not_ltb _ _ Z0).
Qed.

Lemma calculate_escerts_flags_witness :
  (83.0 =? 0) = false /\
  exists r,
    calculate_escerts 7.9 7.4 8.0 4000 83.0 0.85 = inr r /\
    ESCertResult.is_generator r = (0 <? 7.4 - 7.9) /\
    ESCertResult.breakeven_sec r =
      (if 7.4 - 7.9 <? 0 then Some 7.4 else None) /\
    (ESCertResult.breakeven_sec r <> None ->
     ESCertResult.is_generator r = false) /\
    (ESCertResult.is_generator r = true ->
     ESCertResult.breakeven_sec r = None) /\
    ((7.4 - 7.9 =? 0) = true ->
     ESCertResult.is_generator r = false /\
     ESCertResult.breakeven_sec r = None).
Proof.
  split; [reflexivity|].
  apply (calculate_escerts_flags 7.9 7.4 8.0 4000 83.0 0.85). reflexivity.
Defined.

(** ** [calculate_portfolio_escerts] *)

Lemma default_rate_nonzero : (default_usd_inr_rate =? 0) = false.
Proof. reflexivity. Qed.

(** One iteration never raises: the exchange rate is the default 83.0. *)
Lemma portfolio_body_value (price : float) (acc : portfolio_acc) (row : Row.t) :
  portfolio_body price acc row =
  inr (if ESCertResult.is_generator (row_escerts price row)
       then mk_acc
              (total_generated acc
               + ESCertResult.escerts_toe (row_escerts price row))
              (total_required acc)
              (refinery_positions acc ++ [row_position price row])
       else mk_acc
              (total_generated acc)
              (total_required acc
               + abs (ESCertResult.escerts_toe (row_escerts price row)))
              (refinery_positions acc ++ [row_position price row])).
Proof.
  unfold portfolio_body.
  rewrite (calculate_escerts_value (Row.current_sec row) (Row.target_sec row)
             (Row.capacity_mmtpa row) price default_usd_inr_rate
             default_utilization default_rate_nonzero).
  reflexivity.
Qed.

(** The loop, from any accumulator: totals are the running sums and the
    positions grow by one entry per row, in order. *)
Lemma portfolio_loop (price : float) (rows : list Row.t) :
  forall acc,
    for_rows (portfolio_body price) rows acc =
    inr (mk_acc (generated_sum price rows (total_generated acc))
                (required_sum price rows (total_required acc))
                (refinery_positions acc ++ map (row_position price) rows)).
Proof.
  induction rows as [|row rest IH]; intros acc.
  - cbn. rewrite app_nil_r. now destruct acc.
  - cbn [for_rows]. rewrite portfolio_body_value. cbn [bind].
    rewrite IH. unfold generated_sum, required_sum. cbn [fold_left map].
    destruct (ESCertResult.is_generator (row_escerts price row));
      cbn [total_generated total_required refinery_positions];
      now rewrite <- app_assoc.
Qed.

Lemma portfolio_value (rows : list Row.t) (price : float) :
  calculate_portfolio_escerts rows price =
  inr (Portfolio.mk
         (generated_sum price rows 0)
         (required_sum price rows 0)
         (generated_sum price rows 0 - required_sum price rows 0)
         (abs (generated_sum price rows 0 - required_sum price rows 0)
          * price / 1e7)
         (0 <? generated_sum price rows 0 - required_sum price rows 0)
         (map (row_position price) rows)).
Proof.
  unfold calculate_portfolio_escerts. rewrite portfolio_loop. reflexivity.
Qed.

(** C5: for every facility list and price the portfolio is returned, with
    [net_balance = total_generated - total_required],
    [market_value = |net_balance| * price / 1e7],
    [is_surplus = (net_balance > 0)], and a positions list that has one
    entry per input row, in input order. *)
Theorem portfolio_summary (rows : list Row.t) (price : float) :
  exists s,
    calculate_portfolio_escerts rows price = inr s /\
    Portfolio.net_balance_toe s =
      Portfolio.total_generated_toe s - Portfolio.total_required_toe s /\
    Portfolio.market_value_inr_cr s =
      abs (Portfolio.net_balance_toe s) * price / 1e7 /\
    Portfolio.is_surplus s = (0 <? Portfolio.net_balance_toe s) /\
    List.length (Portfolio.positions s) = List.length rows /\
    map Position.refinery (Portfolio.positions s) = map Row.refinery rows /\
    (forall i row,
       nth_error rows i = Some row ->
       nth_error (Portfolio.positions s) i = Some (row_position price row)).
Proof.
  eexists. split; [apply portfolio_value|].
  cbn [Portfolio.net_balance_toe Portfolio.total_generated_toe
       Portfolio.total_required_toe Portfolio.market_value_inr_cr
       Portfolio.is_surplus Portfolio.positions].
  repeat (split; [reflexivity|]).
  split; [apply length_map|]. split.
  - rewrite map_map. reflexivity.
  - intros i row H. now rewrite nth_error_map, H.
Qed.

Lemma portfolio_summary_witness :
  exists s,
    calculate_portfolio_escerts [refinery_A; refinery_C] 4000 = inr s /\
    Portfolio.net_balance_toe s = 203019 - 81208 /\
    Portfolio.is_surplus s = true /\
    nth_error (Portfolio.positions s) 1 =
      Some (Position.mk "C" (-81208) (-32.4830419)).
Proof.
  destruct (portfolio_summary [refinery_A; refinery_C] 4000)
    as (s & Hs & Hnet & _ & Hsur & _ & _ & Hnth).
  exists s. split; [exact Hs|].
  rewrite Hsur, Hnet, (Hnth 1%nat refinery_C eq_refl).
  rewrite portfolio_value in Hs. injection Hs as <-.
  repeat split.
Defined.

(** C9, as stated, fails: the batch with the malformed refinery B (negative
    capacity) returns three ordinary positions and nothing else; B is priced
    by the same formula and its quantity enters [total_generated], which is
    therefore not the total of the other two refineries. *)
Lemma portfolio_malformed_row_is_aggregated :
  map (fun row => Row.capacity_mmtpa row <=? 0)
      [refinery_A; refinery_B; refinery_C] = [false; true; false] /\
  (exists s,
     calculate_portfolio_escerts [refinery_A; refinery_B; refinery_C] 4000
       = inr s /\
     Portfolio.positions s =
       [Position.mk "A" 203019 81.2076049;
        Position.mk "B" (-101510) (-40.6038024);
        Position.mk "C" (-81208) (-32.4830419)] /\
     Portfolio.total_generated_toe s = 101509 /\
     Portfolio.total_required_toe s = 81208) /\
  (exists s',
     calculate_portfolio_escerts [refinery_A; refinery_C] 4000 = inr s' /\
     Portfolio.total_generated_toe s' = 203019 /\
     Portfolio.total_required_toe s' = 81208).
Proof.
  split; [reflexivity|]. split.
  - eexists. split; [vm_compute; reflexivity|]. repeat split.
  - eexists. split; [vm_compute; reflexivity|]. repeat split.
Qed.

(** C9, amended: [calculate_portfolio_escerts] checks no precondition and
    has no error entries.  For every list of rows, whatever their
    capacities, it returns a portfolio: every row gets the ordinary position
    computed by [calculate_escerts], and every row is added to one of the
    two totals.  The batch is never aborted, and no row is reported as
    failed. *)
Theorem portfolio_aggregates_every_row (rows : list Row.t) (price : float) :
  exists s,
    calculate_portfolio_escerts rows price = inr s /\
    Portfolio.positions s = map (row_position price) rows /\
    Portfolio.total_generated_toe s = generated_sum price rows 0 /\
    Portfolio.total_required_toe s = required_sum price rows 0 /\
    Forall2
      (fun row pos =>
         exists r,
           calculate_escerts (Row.current_sec row) (Row.target_sec row)
             (Row.capacity_mmtpa row) price default_usd_inr_rate
             default_utilization = inr r /\
           pos = Position.mk (Row.refinery row) (ESCertResult.escerts_toe r)
                   (ESCertResult.value_inr r / 1e7))
      rows (Portfolio.positions s).
Proof.
  eexists. split; [apply portfolio_value|].
  cbn [Portfolio.positions Portfolio.total_generated_toe
       Portfolio.total_required_toe].
  repeat (split; [reflexivity|]).
  induction rows as [|row rest IH]; cbn [map]; constructor; [|exact IH].
  eexists. split; [|reflexivity].
  apply calculate_escerts_value. exact default_rate_nonzero.
Qed.

(** ** [predict_sec_reduction] *)

Lemma predict_below_threshold (c : Z) (cap : float)
    (m : DiffInDiffCoefficients.t) :
  (10 <? cap) = false ->
  predict_sec_reduction c cap m =
  if (c <=? 2)%Z
  then abs (DiffInDiffCoefficients.early_entrant_effect m) * 100
  else abs (DiffInDiffCoefficients.late_entrant_effect m) * 100.
Proof.
  intros H. unfold predict_sec_reduction. rewrite H.
  destruct (c <=? 2)%Z; apply add_zero_r, abs_mul_100_sign.
Qed.

Lemma predict_above_threshold (c : Z) (cap : float)
    (m : DiffInDiffCoefficients.t) :
  (10 <? cap) = true ->
  predict_sec_reduction c cap m =
  (if (c <=? 2)%Z
   then abs (DiffInDiffCoefficients.early_entrant_effect m) * 100
   else abs (DiffInDiffCoefficients.late_entrant_effect m) * 100)
  - DiffInDiffCoefficients.large_refinery_adj m * 100.
Proof.
  intros H. unfold predict_sec_reduction. rewrite H.
  now rewrite mul_opp_l, add_opp_r.
Qed.

(** C6: the prediction depends on the cycle of entry only through the test
    [cycle <= 2] (two tiers, one breakpoint at 2); above the capacity
    threshold, [capacity > 10] strictly, it is the prediction below the
    threshold minus [large_refinery_adj * 100], and a capacity of exactly 10
    is not penalised.  With the default coefficients the predictions for
    cycles 1 and 2 at capacity 5 agree and differ from the one for cycle 3,
    and the prediction at capacity 15 is smaller than at capacity 5. *)
Theorem predict_sec_reduction_two_tier :
  (forall c cap m, (c <= 2)%Z ->
     predict_sec_reduction c cap m = predict_sec_reduction 2 cap m) /\
  (forall c cap m, (2 < c)%Z ->
     predict_sec_reduction c cap m = predict_sec_reduction 3 cap m) /\
  (forall c cap cap' m, (10 <? cap) = true -> (10 <? cap') = false ->
     predict_sec_reduction c cap m =
     predict_sec_reduction c cap' m
     - DiffInDiffCoefficients.large_refinery_adj m * 100) /\
  (forall c m, predict_sec_reduction c 10 m = predict_sec_reduction c 5 m) /\
  predict_sec_reduction 1 5 MODEL = predict_sec_reduction 2 5 MODEL /\
  (predict_sec_reduction 1 5 MODEL =? predict_sec_reduction 2 5 MODEL) = true /\
  (predict_sec_reduction 1 5 MODEL =? predict_sec_reduction 3 5 MODEL) = false /\
  predict_sec_reduction 1 5 MODEL <> predict_sec_reduction 3 5 MODEL /\
  (predict_sec_reduction 1 15 MODEL <? predict_sec_reduction 1 5 MODEL) = true.
Proof.
  split; [|split; [|split; [|split]]].
  - intros c cap m H. unfold predict_sec_reduction.
    now rewrite (proj2 (Z.leb_le c 2) H).
  - intros c cap m H. unfold predict_sec_reduction.
    now rewrite (proj2 (Z.leb_gt c 2) H).
  - intros c cap cap' m Hhi Hlo.
    now rewrite (predict_above_threshold _ _ _ Hhi),
                (predict_below_threshold _ _ _ Hlo).
  - intros c m. now rewrite !predict_below_threshold.
  - repeat split.
    intros H.
    assert (E : (predict_sec_reduction 1 5 MODEL
                 =? predict_sec_reduction 3 5 MODEL) = false) by reflexivity.
    rewrite <- H in E. vm_compute in E. discriminate.
Qed.

Lemma predict_sec_reduction_two_tier_witness :
  (10 <? 15) = true /\ (10 <? 5) = false /\ (0 <= 2)%Z /\ (2 < 7)%Z /\
  predict_sec_reduction 0 15 MODEL = predict_sec_reduction 2 15 MODEL /\
  predict_sec_reduction 7 15 MODEL = predict_sec_reduction 3 15 MODEL /\
  predict_sec_reduction 1 15 MODEL =
    predict_sec_reduction 1 5 MODEL
    - DiffInDiffCoefficients.large_refinery_adj MODEL * 100.
Proof.
  split; [reflexivity|]. split; [reflexivity|].
  split; [lia|]. split; [lia|].
  split; [|split].
  - apply (proj1 predict_sec_reduction_two_tier 0%Z 15 MODEL). lia.
  - apply (proj1 (proj2 predict_sec_reduction_two_tier) 7%Z 15 MODEL). lia.
  - apply (proj1 (proj2 (proj2 predict_sec_reduction_two_tier))
             1%Z 15 5 MODEL); reflexivity.
Defined.

(** C10: with the default coefficients, every facility that entered after
    cycle 2 and has a capacity above 10 gets the same negative prediction,
    2.2 - 8.5, which is -6.3 to one place; the prediction is not always
    non-negative. *)
Theorem predict_sec_reduction_negative (c : Z) (cap : float) :
  (2 < c)%Z -> (10 <? cap) = true ->
  predict_sec_reduction c cap MODEL = abs (-0.022) * 100 + - 0.085 * 100 /\
  predict_sec_reduction c cap MODEL = -6.300000000000001 /\
  (predict_sec_reduction c cap MODEL <? 0) = true /\
  py_round (predict_sec_reduction c cap MODEL) 1 = -6.3.
Proof.
  intros Hc Hcap.
  assert (E : predict_sec_reduction c cap MODEL = -6.300000000000001).
  { unfold predict_sec_reduction.
    rewrite (proj2 (Z.leb_gt c 2) Hc), Hcap. reflexivity. }
  rewrite E. repeat split.
Qed.

Lemma predict_sec_reduction_negative_witness :
  (2 < 3)%Z /\ (10 <? 15.0) = true /\
  (predict_sec_reduction 3 15.0 MODEL <? 0) = true.
Proof.
  split; [lia|]. split; [reflexivity|].
  apply (predict_sec_reduction_negative 3 15.0); [lia | reflexivity].
Defined.

(** ** [monte_carlo_compliance] and [batch_compliance_forecast] *)

Section SimulationProperties.

Variable rng_state : Type.
Variable mt_init : Z -> rng_state.
Variable np_random_normal :
  float -> float -> Z -> rng_state -> result (list float * rng_state).
Variable np_mean : list bool -> float.
Variable np_percentile : list float -> float -> result float.
Variable np_round : float -> N -> float.
Variable hash : string -> Z.

Local Abbreviation monte_carlo :=
  (monte_carlo_compliance mt_init np_random_normal np_mean np_percentile).
Local Abbreviation forecast :=
  (forecast_row mt_init np_random_normal np_mean np_percentile np_round hash).
Local Abbreviation batch_from :=
  (batch_loop mt_init np_random_normal np_mean np_percentile np_round hash).
Local Abbreviation batch :=
  (batch_compliance_forecast mt_init np_random_normal np_mean np_percentile
     np_round hash).

(** Seeding discards the generator state it finds. *)
Lemma np_random_seed_resets (seed : Z) (st1 st2 : rng_state) :
  np_random_seed mt_init seed st1 = np_random_seed mt_init seed st2.
Proof. reflexivity. Qed.

Lemma np_random_seed_in_range (seed : Z) (st : rng_state) :
  (0 <= seed < 2 ^ 32)%Z ->
  np_random_seed mt_init seed st = inr (tt, mt_init seed).
Proof.
  intros [H0 H1]. unfold np_random_seed.
  rewrite (proj2 (Z.leb_le 0 seed) H0), (proj2 (Z.ltb_lt seed (2 ^ 32)) H1).
  reflexivity.
Qed.

Lemma monte_carlo_seeded_resets
    (baseline target predicted : float) (n : Z) (std : float) (seed : Z)
    (st1 st2 : rng_state) :
  monte_carlo baseline target predicted n std (Some seed) st1 =
  monte_carlo baseline target predicted n std (Some seed) st2.
Proof.
  unfold monte_carlo_compliance, sim_bind.
  now rewrite (np_random_seed_resets seed st1 st2).
Qed.

(** C7: with an explicit seed, the whole outcome of
    [monte_carlo_compliance] (probability, both interval bounds, the sample
    array, and the generator state left behind) is the same from any two
    generator states the calls may start in: for a seed in 0 .. 2**32 - 1 it
    is the outcome of the unseeded computation run from the state the seed
    installs, and for any other seed both calls raise ValueError. *)
Theorem monte_carlo_seeded_deterministic
    (baseline target predicted : float) (n : Z) (std : float) (seed : Z)
    (st1 st2 : rng_state) :
  monte_carlo baseline target predicted n std (Some seed) st1 =
  monte_carlo baseline target predicted n std (Some seed) st2 /\
  observe (monte_carlo baseline target predicted n std (Some seed) st1) =
  observe (monte_carlo baseline target predicted n std (Some seed) st2) /\
  ((0 <= seed < 2 ^ 32)%Z ->
   monte_carlo baseline target predicted n std (Some seed) st1 =
   monte_carlo baseline target predicted n std None (mt_init seed)) /\
  (~ (0 <= seed < 2 ^ 32)%Z ->
   monte_carlo baseline target predicted n std (Some seed) st1 =
   inl ValueError).
Proof.
  assert (E : monte_carlo baseline target predicted n std (Some seed) st1 =
              monte_carlo baseline target predicted n std (Some seed) st2).
  { unfold monte_carlo_compliance, sim_bind.
    now rewrite (np_random_seed_resets seed st1 st2). }
  split; [exact E|]. split; [now rewrite E|]. split.
  - intros Hrange. unfold monte_carlo_compliance.
    unfold sim_bind at 1 5.
    rewrite (np_random_seed_in_range seed st1 Hrange). reflexivity.
  - intros Hout. unfold monte_carlo_compliance. unfold sim_bind at 1.
    unfold np_random_seed.
    destruct (0 <=? seed)%Z eqn:H0; [|reflexivity].
    destruct (seed <? 2 ^ 32)%Z eqn:H1; [|reflexivity].
    exfalso. apply Hout. split.
    + now apply Z.leb_le.
    + now apply Z.ltb_lt.
Qed.

Lemma row_seed_in_range (row : Row.t) : (0 <= row_seed hash row < 2 ^ 32)%Z.
Proof. unfold row_seed. apply Z.mod_pos_bound. reflexivity. Qed.

(** The entry of a row does not depend on the generator state before it. *)
Lemma forecast_row_resets (row : Row.t) (st1 st2 : rng_state) :
  forecast row st1 = forecast row st2.
Proof.
  unfold forecast_row, sim_bind, lift.
  destruct (_ // 100) as [e|q]; [reflexivity|]. cbn [ret].
  now rewrite (monte_carlo_seeded_resets _ _ _ _ _ _ st1 st2).
Qed.

(** The loop from any accumulator and generator state: the entries of the
    rows, each computed on its own, appended in order. *)
Lemma batch_loop_entries (rows : list Row.t) (st0 : rng_state) :
  forall acc st,
    observe (batch_from rows acc st) =
    (entries <- map_result (fun row => observe (forecast row st0)) rows ;;
     ret (acc ++ entries)).
Proof.
  induction rows as [|row rest IH]; intros acc st.
  - cbn. now rewrite app_nil_r.
  - cbn [batch_loop map_result]. unfold sim_bind at 1.
    rewrite (forecast_row_resets row st st0).
    destruct (forecast row st0) as [e|[entry st']]; [reflexivity|].
    cbn [observe bind]. rewrite IH.
    destruct (map_result _ rest) as [e|entries]; [reflexivity|].
    cbn [bind ret]. now rewrite <- app_assoc.
Qed.

(** Within one interpreter process, where [hash] is one function: the seed
    of a row is [hash] of its identifier modulo 2**32, always accepted by
    [np.random.seed], so the entry of a row is the same from any generator
    state; the batch returns, in order, the entries each row gets on its
    own, and two runs over the same rows return the same forecasts. *)
Lemma batch_forecast_reproducible :
  (forall row row', Row.refinery row = Row.refinery row' ->
     row_seed hash row = row_seed hash row') /\
  (forall row st,
     np_random_seed mt_init (row_seed hash row) st =
     inr (tt, mt_init (row_seed hash row))) /\
  (forall row st1 st2, forecast row st1 = forecast row st2) /\
  (forall rows st st0,
     observe (batch rows st) =
     map_result (fun row => observe (forecast row st0)) rows) /\
  (forall rows st1 st2, observe (batch rows st1) = observe (batch rows st2)).
Proof.
  assert (E : forall rows st st0,
             observe (batch rows st) =
             map_result (fun row => observe (forecast row st0)) rows).
  { intros rows st st0. unfold batch_compliance_forecast.
    rewrite (batch_loop_entries rows st0).
    now destruct (map_result _ rows). }
  split; [|split; [|split; [|split]]].
  - intros row row' H. unfold row_seed. now rewrite H.
  - intros row st. apply np_random_seed_in_range, row_seed_in_range.
  - exact forecast_row_resets.
  - exact E.
  - intros rows st1 st2. now rewrite (E rows st1 st1), (E rows st2 st1).
Qed.

End SimulationProperties.

(** The hash model on refinery names of 12, 16 and 17 characters, as the
    interpreter prints them under PYTHONHASHSEED 0, 1 and 2. *)
Example str_hash_values :
  str_hash (hash_secret 0) "IOCL Panipat" = (-4289252539754764815)%Z /\
  str_hash (hash_secret 1) "IOCL Panipat" = (-3215862952664843250)%Z /\
  str_hash (hash_secret 2) "IOCL Panipat" = (-5706952565596602317)%Z /\
  str_hash (hash_secret 1) "RIL Jamnagar DTA" = (-6901262467515560457)%Z /\
  str_hash (hash_secret 2) "CPCL Nagapattinam" = (-1286796080610432980)%Z /\
  str_hash (hash_secret 7) "" = 0%Z.
Proof. vm_compute. repeat split. Qed.

(** C8 fails on the code: the seed is [hash(row['refinery']) % 2**32], and
    [hash] of a string depends on the secret of the interpreter process.
    For the refinery "IOCL Panipat" the seed is 3557997582 under the secret
    of PYTHONHASHSEED=1 and 3650895923 under that of PYTHONHASHSEED=2, so
    the seed is not a function of the identifier alone and two runs of the
    batch in two processes seed the generator differently; on the toy
    generator their forecasts differ. *)
Theorem batch_seed_varies_with_hash_secret :
  row_seed (str_hash (hash_secret 1)) IOCL_Panipat = 3557997582%Z /\
  row_seed (str_hash (hash_secret 2)) IOCL_Panipat = 3650895923%Z /\
  row_seed (str_hash (hash_secret 1)) IOCL_Panipat <>
  row_seed (str_hash (hash_secret 2)) IOCL_Panipat /\
  exists f1 f2,
    observe (batch_compliance_forecast toy_init toy_normal toy_mean
               toy_percentile (fun x _ => x) (str_hash (hash_secret 1))
               [IOCL_Panipat] 0%Z) = inr [f1] /\
    observe (batch_compliance_forecast toy_init toy_normal toy_mean
               toy_percentile (fun x _ => x) (str_hash (hash_secret 2))
               [IOCL_Panipat] 0%Z) = inr [f2] /\
    (Forecast.ci_lower f1 =? Forecast.ci_lower f2) = false.
Proof.
  split; [vm_compute; reflexivity|]. split; [vm_compute; reflexivity|].
  split; [vm_compute; discriminate|].
  eexists. eexists.
  split; [vm_compute; reflexivity|]. split; [vm_compute; reflexivity|].
  vm_compute. reflexivity.
Qed.

Lemma monte_carlo_seeded_deterministic_witness :
  (0 <= 42 < 2 ^ 32)%Z /\
  monte_carlo_compliance toy_init toy_normal toy_mean toy_percentile
    8.33 7.9 24.1 1000 17.1 (Some 42%Z) 5%Z =
  monte_carlo_compliance toy_init toy_normal toy_mean toy_percentile
    8.33 7.9 24.1 1000 17.1 None (toy_init 42).
Proof.
  split; [lia|].
  apply (proj1 (proj2 (proj2
           (monte_carlo_seeded_deterministic Z toy_init toy_normal toy_mean
              toy_percentile 8.33 7.9 24.1 1000 17.1 42%Z 5%Z 9%Z)))).
  lia.
Defined.

(** The state threading of the model is not idle: on the toy generator an
    unseeded call returns what the state it starts in dictates, and a seeded
    call does not. *)
Example monte_carlo_unseeded_follows_state :
  observe (monte_carlo_compliance toy_init toy_normal toy_mean toy_percentile
             8.33 7.9 24.1 3 17.1 None 0%Z)
  = inr (100, 6.32247, 3.4736099999999994,
         [6.32247; 4.8980399999999999; 3.4736099999999994]) /\
  observe (monte_carlo_compliance toy_init toy_normal toy_mean toy_percentile
             8.33 7.9 24.1 3 17.1 None 1%Z)
  = inr (100, 4.8980399999999999, 2.0491799999999998,
         [4.8980399999999999; 3.4736099999999994; 2.0491799999999998]) /\
  observe (monte_carlo_compliance toy_init toy_normal toy_mean toy_percentile
             8.33 7.9 24.1 3 17.1 (Some 42%Z) 0%Z)
  = observe (monte_carlo_compliance toy_init toy_normal toy_mean
               toy_percentile 8.33 7.9 24.1 3 17.1 (Some 42%Z) 1%Z).
Proof. repeat split. Qed.

(** The rounding model on the values the tests and docstrings mention. *)
Example py_round_values :
  py_round 8.5 3 = 8.5 /\ py_round (1 / 3) 3 = 0.333 /\
  py_round 2.675 2 = 2.67 /\ py_round 0.5 0 = 0 /\ py_round 1.5 0 = 2 /\
  py_round 2.5 0 = 2 /\ py_round 51.800000000000004 1 = 51.8 /\
  py_round 1e22 3 = 1e22 /\ py_round infinity 3 = infinity.
Proof. repeat split. Qed.

(** * Further properties *)

(** ** The sign of a difference of two binary64 numbers *)

Lemma digits2_pos_bounds (m : positive) :
  (2 ^ (Zpos (digits2_pos m) - 1) <= Zpos m < 2 ^ Zpos (digits2_pos m))%Z.
Proof.
  induction m as [p IH|p IH|]; cbn [digits2_pos].
  - rewrite Pos2Z.inj_succ.
    replace (Z.succ (Zpos (digits2_pos p)) - 1)%Z
      with (Z.succ (Zpos (digits2_pos p) - 1))%Z by lia.
    rewrite !Z.pow_succ_r by lia. lia.
  - rewrite Pos2Z.inj_succ.
    replace (Z.succ (Zpos (digits2_pos p)) - 1)%Z
      with (Z.succ (Zpos (digits2_pos p) - 1))%Z by lia.
    rewrite !Z.pow_succ_r by lia. lia.
  - cbn. lia.
Qed.

Lemma shr_1_m (mrs : shr_record) :
  (0 <= shr_m mrs)%Z -> shr_m (shr_1 mrs) = Z.div2 (shr_m mrs).
Proof.
  destruct mrs as [m r s]. cbn [shr_m]. intros H.
  destruct m as [|[p|p|]|p]; try reflexivity; lia.
Qed.

Lemma iter_shr_1_m (p : positive) :
  forall mrs, (0 <= shr_m mrs)%Z ->
    shr_m (iter_pos shr_1 p mrs) = (shr_m mrs / 2 ^ Zpos p)%Z.
Proof.
  assert (P2 : forall q, (0 < 2 ^ Zpos q)%Z)
    by (intros q; apply Z.pow_pos_nonneg; lia).
  induction p as [p IH|p IH|]; intros mrs H; cbn [iter_pos].
  - assert (H1 : (0 <= shr_m (shr_1 mrs))%Z).
    { rewrite shr_1_m, Z.div2_div by assumption. apply Z.div_pos; lia. }
    assert (H2 : (0 <= shr_m (iter_pos shr_1 p (shr_1 mrs)))%Z).
    { rewrite IH by assumption. apply Z.div_pos; auto. }
    rewrite (IH _ H2), (IH _ H1), shr_1_m, Z.div2_div by assumption.
    rewrite !Z.div_div by (pose proof (P2 p); lia).
    f_equal. rewrite <- Z.pow_add_r, <- Z.pow_succ_r by lia. f_equal. lia.
  - assert (H2 : (0 <= shr_m (iter_pos shr_1 p mrs))%Z).
    { rewrite IH by assumption. apply Z.div_pos; auto. }
    rewrite (IH _ H2), (IH _ H).
    rewrite !Z.div_div by (pose proof (P2 p); lia).
    f_equal. rewrite <- Z.pow_add_r by lia. f_equal. lia.
  - rewrite shr_1_m by assumption. now rewrite Z.div2_div.
Qed.

Lemma shr_record_of_loc_m (m : Z) (l : location) :
  shr_m (shr_record_of_loc m l) = m.
Proof. now destruct l as [|[| |]]. Qed.

(** Shifting a positive mantissa to its format exponent leaves it positive,
    when the exponent is at least [emin]. *)
Lemma shr_fexp_pos (m e : Z) (l : location) :
  (0 < m)%Z -> (emin <= e)%Z ->
  (0 < shr_m (fst (shr_fexp prec emax m e l)))%Z /\
  (emin <= snd (shr_fexp prec emax m e l))%Z.
Proof.
  intros Hm He. unfold shr_fexp, shr.
  destruct (fexp prec emax (Zdigits2 m + e) - e)%Z as [|n|n] eqn:En;
    cbn [fst snd]; rewrite ?shr_record_of_loc_m; try (split; assumption).
  rewrite iter_shr_1_m by (rewrite shr_record_of_loc_m; lia).
  rewrite shr_record_of_loc_m.
  destruct m as [|m|m]; try lia. cbn [Zdigits2] in En.
  pose proof (digits2_pos_bounds m) as [Hlo _].
  unfold fexp, SpecFloat.emin, emin, prec, emax in *.
  assert (Hn : (Zpos n = Zpos (digits2_pos m) - 53)%Z) by lia.
  split; [|lia].
  apply Z.div_str_pos. split; [apply Z.pow_pos_nonneg; lia|].
  eapply Z.le_trans; [|exact Hlo].
  apply Z.pow_le_mono_r; lia.
Qed.

Lemma round_nearest_even_pos (m : Z) (l : location) :
  (0 < m)%Z -> (0 < round_nearest_even m l)%Z.
Proof.
  intros H. destruct l as [|[| |]]; cbn [round_nearest_even]; try lia.
  destruct (Z.even m); lia.
Qed.

(** Rounding a positive mantissa at an exponent not below [emin] gives a
    non-zero number of the requested sign. *)
Lemma binary_round_aux_strict (s : bool) (m e : Z) (l : location) :
  (0 < m)%Z -> (emin <= e)%Z ->
  if s then SFnegative (binary_round_aux prec emax s m e l)
  else SFpositive (binary_round_aux prec emax s m e l).
Proof.
  intros Hm He. unfold binary_round_aux.
  pose proof (shr_fexp_pos m e l Hm He) as [H1 H2].
  destruct (shr_fexp prec emax m e l) as [mrs' e']. cbn [fst snd] in H1, H2.
  pose proof (shr_fexp_pos _ e' loc_Exact
                (round_nearest_even_pos _ (loc_of_shr_record mrs') H1) H2)
    as [H3 _].
  destruct (shr_fexp prec emax _ e' loc_Exact) as [mrs'' e''].
  cbn [fst] in H3.
  destruct (shr_m mrs'') as [|p|p]; try lia.
  destruct (e'' <=? emax - prec)%Z, s; exact I.
Qed.

Lemma iter_xO (d m : positive) :
  Zpos (Pos.iter xO m d) = (Zpos m * 2 ^ Zpos d)%Z.
Proof.
  induction d as [|d IH] using Pos.peano_ind.
  - cbn. lia.
  - rewrite Pos.iter_succ, Pos2Z.inj_xO, IH, Pos2Z.inj_succ, Z.pow_succ_r by lia.
    ring.
Qed.

Lemma shl_align_fst (m : positive) (e e' : Z) :
  (e' <= e)%Z ->
  Zpos (fst (shl_align m e e')) = (Zpos m * 2 ^ (e - e'))%Z.
Proof.
  intros H. unfold shl_align.
  destruct (e' - e)%Z as [|d|d] eqn:E; cbn [fst]; try lia.
  - replace (e - e')%Z with 0%Z by lia. cbn. lia.
  - rewrite iter_xO. f_equal. f_equal. lia.
Qed.

Lemma shl_align_snd (m : positive) (e e' : Z) :
  (emin <= e)%Z -> (emin <= e')%Z -> (emin <= snd (shl_align m e e'))%Z.
Proof.
  intros H H'. unfold shl_align. now destruct (e' - e)%Z.
Qed.

Lemma binary_round_strict (s : bool) (m : positive) (e : Z) :
  (emin <= e)%Z ->
  if s then SFnegative (binary_round prec emax s m e)
  else SFpositive (binary_round prec emax s m e).
Proof.
  intros He. unfold binary_round.
  pose proof (shl_align_snd m e (fexp prec emax (Zpos (digits2_pos m) + e)) He)
    as Hs.
  destruct (shl_align m e _) as [mz ez]. cbn [snd] in Hs.
  apply binary_round_aux_strict; [lia|].
  apply Hs. unfold fexp, SpecFloat.emin, emin, prec, emax. lia.
Qed.

(** What validity says about a mantissa and its exponent. *)
Lemma bounded_facts (m : positive) (e : Z) :
  bounded prec emax m e = true ->
  (emin <= e)%Z /\ (Zpos m < 2 ^ 53)%Z /\
  ((emin < e)%Z -> (2 ^ 52 <= Zpos m)%Z).
Proof.
  unfold bounded, canonical_mantissa. intros H.
  apply andb_prop in H as [H _]. apply Z.eqb_eq in H.
  pose proof (digits2_pos_bounds m) as [Hlo Hhi].
  unfold fexp, SpecFloat.emin, emin, prec, emax in *.
  split; [lia|]. split.
  - eapply Z.lt_le_trans; [exact Hhi|]. apply Z.pow_le_mono_r; lia.
  - intros He.
    replace (Zpos (digits2_pos m)) with 53%Z in Hlo by lia. exact Hlo.
Qed.

(** Among valid numbers the exponent-then-mantissa order is the order of
    the values. *)
Lemma scaled_mantissa_lt (a b k P : Z) :
  (0 < P)%Z -> (a < P * 2)%Z -> (P <= b)%Z -> (2 <= k)%Z -> (a < b * k)%Z.
Proof. intros. nia. Qed.

Lemma compare_aligned (mx my : positive) (ex ey : Z) :
  bounded prec emax mx ex = true -> bounded prec emax my ey = true ->
  match (ex ?= ey)%Z with
  | Lt => Lt
  | Gt => Gt
  | Eq => Pos.compare_cont Eq mx my
  end =
  (Zpos mx * 2 ^ (ex - Z.min ex ey) ?= Zpos my * 2 ^ (ey - Z.min ex ey))%Z.
Proof.
  intros Hx Hy.
  apply bounded_facts in Hx as (Hxe & Hxm & Hxn).
  apply bounded_facts in Hy as (Hye & Hym & Hyn).
  assert (P52 : (0 < 2 ^ 52)%Z) by (apply Z.pow_pos_nonneg; lia).
  replace (2 ^ 53)%Z with (2 ^ 52 * 2)%Z in Hxm, Hym
    by reflexivity.
  destruct (ex ?= ey)%Z eqn:C.
  - apply Z.compare_eq in C. subst ey. rewrite Z.min_id, Z.sub_diag.
    rewrite !Z.mul_1_r, Pos.compare_cont_spec.
    cbn [Z.compare]. now destruct (mx ?= my)%positive.
  - rewrite Z.compare_lt_iff in C. symmetry. apply Z.compare_lt_iff.
    rewrite Z.min_l by lia. rewrite Z.sub_diag, Z.mul_1_r.
    assert (H : (2 ^ 1 <= 2 ^ (ey - ex))%Z) by (apply Z.pow_le_mono_r; lia).
    rewrite Z.pow_1_r in H.
    apply (scaled_mantissa_lt _ _ _ (2 ^ 52)); auto. apply Hyn. lia.
  - rewrite Z.compare_gt_iff in C. symmetry. apply Z.compare_gt_iff.
    rewrite Z.min_r by lia. rewrite Z.sub_diag, Z.mul_1_r.
    assert (H : (2 ^ 1 <= 2 ^ (ex - ey))%Z) by (apply Z.pow_le_mono_r; lia).
    rewrite Z.pow_1_r in H.
    apply (scaled_mantissa_lt _ _ _ (2 ^ 52)); auto. apply Hxn. lia.
Qed.

Lemma SFcompare_finite (sx sy : bool) (mx my : positive) (ex ey : Z) :
  bounded prec emax mx ex = true -> bounded prec emax my ey = true ->
  SFcompare (S754_finite sx mx ex) (S754_finite sy my ey) =
  Some (cond_Zopp sx (Zpos mx * 2 ^ (ex - Z.min ex ey))
        ?= cond_Zopp sy (Zpos my * 2 ^ (ey - Z.min ex ey)))%Z.
Proof.
  intros Hx Hy. pose proof (compare_aligned mx my ex ey Hx Hy) as C.
  assert (Px : (0 < Zpos mx * 2 ^ (ex - Z.min ex ey))%Z)
    by (apply Z.mul_pos_pos; [lia | apply Z.pow_pos_nonneg; lia]).
  assert (Py : (0 < Zpos my * 2 ^ (ey - Z.min ex ey))%Z)
    by (apply Z.mul_pos_pos; [lia | apply Z.pow_pos_nonneg; lia]).
  cbn [SFcompare]. f_equal.
  destruct sx, sy; cbn [cond_Zopp].
  - rewrite Z.compare_opp.
    rewrite (Z.compare_antisym (Zpos mx * 2 ^ (ex - Z.min ex ey))), <- C.
    now destruct (ex ?= ey)%Z.
  - symmetry. apply Z.compare_lt_iff. lia.
  - symmetry. apply Z.compare_gt_iff. lia.
  - exact C.
Qed.

(** The sign of [y - x] for two valid finite numbers is their order. *)
Lemma SFsub_finite_sign (sx sy : bool) (mx my : positive) (ex ey : Z) :
  bounded prec emax mx ex = true -> bounded prec emax my ey = true ->
  match SFcompare (S754_finite sx mx ex) (S754_finite sy my ey) with
  | Some Lt =>
      SFpositive (SFsub prec emax (S754_finite sy my ey) (S754_finite sx mx ex))
  | Some Gt =>
      SFnegative (SFsub prec emax (S754_finite sy my ey) (S754_finite sx mx ex))
  | Some Eq =>
      SFsub prec emax (S754_finite sy my ey) (S754_finite sx mx ex)
      = S754_zero false
  | None => False
  end.
Proof.
  intros Hx Hy. rewrite (SFcompare_finite _ _ _ _ _ _ Hx Hy).
  pose proof (bounded_facts _ _ Hx) as (Hxe & _).
  pose proof (bounded_facts _ _ Hy) as (Hye & _).
  cbn [SFsub]. rewrite (Z.min_comm ey ex).
  rewrite !shl_align_fst by lia.
  set (vx := cond_Zopp sx (Zpos mx * 2 ^ (ex - Z.min ex ey))).
  set (vy := cond_Zopp sy (Zpos my * 2 ^ (ey - Z.min ex ey))).
  assert (Hmin : (emin <= Z.min ex ey)%Z) by lia.
  destruct (vx ?= vy)%Z eqn:C.
  - apply Z.compare_eq in C.
    now replace (vy - vx)%Z with 0%Z by lia.
  - rewrite Z.compare_lt_iff in C.
    destruct (vy - vx)%Z as [|d|d] eqn:D; try lia.
    cbn [binary_normalize]. exact (binary_round_strict false d _ Hmin).
  - rewrite Z.compare_gt_iff in C.
    destruct (vy - vx)%Z as [|d|d] eqn:D; try lia.
    cbn [binary_normalize]. exact (binary_round_strict true d _ Hmin).
Qed.

Lemma SFltb_zero_positive (r : spec_float) :
  SFpositive r -> SFltb (S754_zero false) r = true /\
                  SFltb r (S754_zero false) = false.
Proof. destruct r as [s|[|]| |[|] m e]; cbn; intros H; now try destruct H. Qed.

Lemma SFltb_zero_negative (r : spec_float) :
  SFnegative r -> SFltb (S754_zero false) r = false /\
                  SFltb r (S754_zero false) = true.
Proof. destruct r as [s|[|]| |[|] m e]; cbn; intros H; now try destruct H. Qed.

Lemma SFsub_sign (X Y : spec_float) :
  valid_binary X = true -> valid_binary Y = true ->
  SFltb (S754_zero false) (SFsub prec emax Y X) = SFltb X Y /\
  SFltb (SFsub prec emax Y X) (S754_zero false) = SFltb Y X.
Proof.
  intros HX HY.
  destruct X as [sx|sx| |sx mx ex], Y as [sy|sy| |sy my ey];
    try (split; reflexivity);
    try (destruct sx, sy; split; reflexivity);
    try (destruct sx; split; reflexivity);
    try (destruct sy; split; reflexivity).
  cbn [valid_binary] in HX, HY.
  pose proof (SFsub_finite_sign sx sy mx my ex ey HX HY) as S.
  unfold SFltb at 2 4.
  rewrite (SFcompare_finite sy sx my mx ey ex HY HX).
  rewrite (SFcompare_finite sx sy mx my ex ey HX HY) in S |- *.
  rewrite (Z.min_comm ey ex).
  set (vx := cond_Zopp sx (Zpos mx * 2 ^ (ex - Z.min ex ey))) in *.
  set (vy := cond_Zopp sy (Zpos my * 2 ^ (ey - Z.min ex ey))) in *.
  rewrite (Z.compare_antisym vx vy).
  destruct (vx ?= vy)%Z; cbn [CompOpp].
  - rewrite S. split; reflexivity.
  - now apply SFltb_zero_positive.
  - now apply SFltb_zero_negative.
Qed.

(** [0 < y - x] is [x < y], and [y - x < 0] is [y < x], for all binary64
    numbers, NaN and the infinities included. *)
Lemma ltb_sub (x y : float) :
  (0 <? y - x) = (x <? y) /\ (y - x <? 0) = (y <? x).
Proof.
  rewrite !ltb_spec, sub_spec.
  change (Prim2SF 0) with (S754_zero false).
  apply SFsub_sign; apply Prim2SF_valid.
Qed.

(** ** Numbers that are not negative, and NaN *)

Lemma binary_round_aux_not_negative (m e : Z) (l : location) :
  SFltb (binary_round_aux prec emax false m e l) (S754_zero false) = false.
Proof.
  unfold binary_round_aux.
  destruct (shr_fexp prec emax m e l) as [mrs' e'].
  destruct (shr_fexp prec emax _ e' loc_Exact) as [mrs'' e''].
  destruct (shr_m mrs''); [reflexivity| |reflexivity].
  now destruct (e'' <=? emax - prec)%Z.
Qed.

Lemma SFltb_zero_false_shape (r : spec_float) :
  SFltb r (S754_zero false) = false ->
  match r with
  | S754_infinity true | S754_finite true _ _ => False
  | _ => True
  end.
Proof. destruct r as [s|[|]| |[|] m e]; cbn; intros H; now try discriminate. Qed.

Lemma add_abs_not_negative (x z : float) :
  (x <? 0) = false -> (x + abs z <? 0) = false.
Proof.
  rewrite !ltb_spec, add_spec, abs_spec.
  change (Prim2SF 0) with (S754_zero false). unfold SF64add.
  intros H. apply SFltb_zero_false_shape in H.
  destruct (Prim2SF x) as [sx|[|]| |[|] mx ex]; try contradiction;
    destruct (Prim2SF z) as [sz|sz| |sz mz ez]; cbn [SFabs SFadd];
    try reflexivity; try (now destruct sx).
  cbn [cond_Zopp]. cbn [Z.add binary_normalize]. unfold binary_round.
  destruct (shl_align _ _ _) as [m' e'].
  apply binary_round_aux_not_negative.
Qed.

Lemma abs_mul_div_not_negative (n p : float) :
  (p <? 0) = false -> (abs n * p / 1e7 <? 0) = false.
Proof.
  rewrite !ltb_spec, div_spec, mul_spec, abs_spec.
  change (Prim2SF 0) with (S754_zero false).
  change (Prim2SF 1e7) with (S754_finite false 5368709120000000 (-29)).
  unfold SF64div, SF64mul.
  intros H. apply SFltb_zero_false_shape in H.
  assert (D : forall r,
             SFltb r (S754_zero false) = false ->
             SFltb (SFdiv prec emax r
                      (S754_finite false 5368709120000000 (-29)))
                   (S754_zero false) = false).
  { intros r Hr. apply SFltb_zero_false_shape in Hr.
    destruct r as [s|[|]| |[|] m e]; try contradiction; cbn [SFdiv xorb];
      try reflexivity; try (now destruct s).
    destruct (SFdiv_core_binary prec emax (Zpos m) e _ _) as [[mz ez] lz].
    apply binary_round_aux_not_negative. }
  apply D.
  destruct (Prim2SF n) as [sn|sn| |sn mn en];
    destruct (Prim2SF p) as [sp|[|]| |[|] mp ep]; try contradiction;
    cbn [SFabs SFmul xorb]; try reflexivity; try (now destruct sp).
  apply binary_round_aux_not_negative.
Qed.

Lemma nan_sub_r (x : float) : x - nan = nan.
Proof.
  apply Prim2SF_inj. rewrite sub_spec.
  change (Prim2SF nan) with S754_nan. now destruct (Prim2SF x).
Qed.

Lemma nan_sub_l (x : float) : nan - x = nan.
Proof.
  apply Prim2SF_inj. rewrite sub_spec.
  change (Prim2SF nan) with S754_nan. reflexivity.
Qed.

Lemma nan_add_r (x : float) : x + nan = nan.
Proof.
  apply Prim2SF_inj. rewrite add_spec.
  change (Prim2SF nan) with S754_nan. now destruct (Prim2SF x).
Qed.

Lemma nan_add_l (x : float) : nan + x = nan.
Proof.
  apply Prim2SF_inj. rewrite add_spec.
  change (Prim2SF nan) with S754_nan. reflexivity.
Qed.

Lemma nan_mul_l (x : float) : nan * x = nan.
Proof.
  apply Prim2SF_inj. rewrite mul_spec.
  change (Prim2SF nan) with S754_nan. reflexivity.
Qed.

Lemma nan_mul_r (x : float) : x * nan = nan.
Proof.
  apply Prim2SF_inj. rewrite mul_spec.
  change (Prim2SF nan) with S754_nan. now destruct (Prim2SF x).
Qed.

Lemma nan_div_l (x : float) : nan / x = nan.
Proof.
  apply Prim2SF_inj. rewrite div_spec.
  change (Prim2SF nan) with S754_nan. reflexivity.
Qed.

Lemma nan_div_r (x : float) : x / nan = nan.
Proof.
  apply Prim2SF_inj. rewrite div_spec.
  change (Prim2SF nan) with S754_nan. now destruct (Prim2SF x).
Qed.

Lemma nan_ltb_l (x : float) : (nan <? x) = false.
Proof. rewrite ltb_spec. reflexivity. Qed.

Lemma nan_ltb_r (x : float) : (x <? nan) = false.
Proof.
  rewrite ltb_spec. change (Prim2SF nan) with S754_nan.
  unfold SFltb. now destruct (Prim2SF x).
Qed.

Lemma nan_eqb_l (x : float) : (nan =? x) = false.
Proof. rewrite eqb_spec. reflexivity. Qed.

Lemma py_round_nan (ndigits : N) : py_round nan ndigits = nan.
Proof. unfold py_round. now destruct (NDIGITS_MAX <? ndigits)%N. Qed.

(** ** Generators, buyers and the compliance column *)

(** X1: whenever [calculate_escerts] returns, the facility is a generator
    exactly when its current SEC is below its target, and a break-even
    value is set exactly when the target is below the current SEC; the
    subtraction the code performs never changes the answer. *)
Theorem escerts_generator_iff_below_target
    (cur tgt cap price usd util : float) :
  (usd =? 0) = false ->
  exists r,
    calculate_escerts cur tgt cap price usd util = inr r /\
    ESCertResult.is_generator r = (cur <? tgt) /\
    ESCertResult.breakeven_sec r = (if tgt <? cur then Some tgt else None).
Proof.
  intros Hu. eexists. split; [now apply calculate_escerts_value|].
  cbn [escert_record ESCertResult.is_generator ESCertResult.breakeven_sec].
  destruct (ltb_sub cur tgt) as [Hpos Hneg]. now rewrite Hpos, Hneg.
Qed.

Lemma escerts_generator_iff_below_target_witness :
  (83.0 =? 0) = false /\
  exists r,
    calculate_escerts 7.9 7.4 8.0 4000 83.0 0.85 = inr r /\
    ESCertResult.is_generator r = (7.9 <? 7.4) /\
    ESCertResult.breakeven_sec r = (if 7.4 <? 7.9 then Some 7.4 else None).
Proof.
  split; [reflexivity|].
  apply (escerts_generator_iff_below_target 7.9 7.4 8.0 4000 83.0 0.85).
  reflexivity.
Defined.

Lemma row_is_compliant (d : Refinery.t) (price : float) :
  ESCertResult.is_generator (row_escerts price (row_view (derive_row d))) =
  Derived.is_compliant (derive_row d).
Proof.
  cbn. apply (proj1 (ltb_sub _ _)).
Qed.

Lemma compliant_sums (price : float) (df : list Refinery.t) :
  forall g q,
    fold_left
      (fun t row =>
         if ESCertResult.is_generator (row_escerts price row)
         then t + ESCertResult.escerts_toe (row_escerts price row)
         else t)
      (map row_view (_compute_derived_metrics df)) g =
    fold_left
      (fun t d =>
         if Derived.is_compliant d
         then t + ESCertResult.escerts_toe (row_escerts price (row_view d))
         else t)
      (_compute_derived_metrics df) g /\
    fold_left
      (fun t row =>
         if ESCertResult.is_generator (row_escerts price row)
         then t
         else t + abs (ESCertResult.escerts_toe (row_escerts price row)))
      (map row_view (_compute_derived_metrics df)) q =
    fold_left
      (fun t d =>
         if Derived.is_compliant d
         then t
         else t + abs (ESCertResult.escerts_toe
                         (row_escerts price (row_view d))))
      (_compute_derived_metrics df) q.
Proof.
  unfold _compute_derived_metrics.
  induction df as [|d rest IH]; intros g q; [split; reflexivity|].
  cbn [map fold_left]. rewrite (row_is_compliant d price).
  destruct (Derived.is_compliant (derive_row d)); apply IH.
Qed.

(** X2: on a table produced by [_compute_derived_metrics], the rows that
    [calculate_portfolio_escerts] adds to [total_generated] are exactly the
    rows whose [is_compliant] column is true, and all other rows go to
    [total_required]. *)
Theorem portfolio_generators_are_compliant_rows
    (df : list Refinery.t) (price : float) :
  exists s,
    calculate_portfolio_escerts
      (map row_view (_compute_derived_metrics df)) price = inr s /\
    Portfolio.total_generated_toe s =
      compliant_sum price (_compute_derived_metrics df) /\
    Portfolio.total_required_toe s =
      noncompliant_sum price (_compute_derived_metrics df) /\
    Forall
      (fun d =>
         Derived.is_compliant d =
         ESCertResult.is_generator (row_escerts price (row_view d)))
      (_compute_derived_metrics df).
Proof.
  eexists. split; [apply portfolio_value|].
  cbn [Portfolio.total_generated_toe Portfolio.total_required_toe].
  unfold generated_sum, required_sum, compliant_sum, noncompliant_sum.
  destruct (compliant_sums price df 0 0) as [Hg Hq].
  split; [exact Hg|]. split; [exact Hq|].
  unfold _compute_derived_metrics. apply Forall_map, Forall_forall.
  intros d _. symmetry. apply row_is_compliant.
Qed.

(** X3: [entry_category] of [data.py] and the tiers of
    [predict_sec_reduction] use the same breakpoint: two derived rows of
    the same category on the same side of the capacity threshold get the
    same prediction, for any coefficients. *)
Theorem entry_category_decides_prediction
    (r1 r2 : Refinery.t) (m : DiffInDiffCoefficients.t) :
  Derived.entry_category (derive_row r1) =
  Derived.entry_category (derive_row r2) ->
  (10 <? Refinery.capacity_mmtpa r1) = (10 <? Refinery.capacity_mmtpa r2) ->
  predict_sec_reduction (Refinery.pat_cycle_entry r1)
    (Refinery.capacity_mmtpa r1) m =
  predict_sec_reduction (Refinery.pat_cycle_entry r2)
    (Refinery.capacity_mmtpa r2) m.
Proof.
  cbn [derive_row Derived.entry_category]. unfold predict_sec_reduction.
  intros Hc Hcap. rewrite Hcap.
  destruct (Refinery.pat_cycle_entry r1 <=? 2)%Z,
           (Refinery.pat_cycle_entry r2 <=? 2)%Z;
    try reflexivity; discriminate.
Qed.

Lemma entry_category_decides_prediction_witness :
  Derived.entry_category
    (derive_row (Refinery.mk "IOCL Panipat" 15.0 "PSU" 1 8.2 6.4 7.8 1998)) =
  Derived.entry_category
    (derive_row (Refinery.mk "HMEL Bathinda" 11.3 "JV" 2 7.9 6.5 7.5 2012)) /\
  (10 <? 15.0) = (10 <? 11.3) /\
  predict_sec_reduction 1 15.0 MODEL = predict_sec_reduction 2 11.3 MODEL.
Proof.
  split; [reflexivity|]. split; [reflexivity|].
  apply (entry_category_decides_prediction
           (Refinery.mk "IOCL Panipat" 15.0 "PSU" 1 8.2 6.4 7.8 1998)
           (Refinery.mk "HMEL Bathinda" 11.3 "JV" 2 7.9 6.5 7.5 2012) MODEL);
    reflexivity.
Defined.

(** ** Totals of the portfolio *)

Lemma required_sum_not_negative (price : float) (rows : list Row.t) :
  forall t, (t <? 0) = false -> (required_sum price rows t <? 0) = false.
Proof.
  unfold required_sum.
  induction rows as [|row rest IH]; intros t Ht; [exact Ht|].
  cbn [fold_left]. apply IH.
  destruct (ESCertResult.is_generator (row_escerts price row)); [exact Ht|].
  now apply add_abs_not_negative.
Qed.

(** X4: [total_required_toe] is never negative, for any rows and price
    (it is zero, positive or NaN). *)
Theorem total_required_never_negative (rows : list Row.t) (price : float) :
  exists s,
    calculate_portfolio_escerts rows price = inr s /\
    (Portfolio.total_required_toe s <? 0) = false.
Proof.
  eexists. split; [apply portfolio_value|].
  cbn [Portfolio.total_required_toe].
  now apply required_sum_not_negative.
Qed.

(** X5: for a price that is not negative, [market_value_inr_cr] is never
    negative, whichever way the balance goes. *)
Theorem market_value_never_negative (rows : list Row.t) (price : float) :
  (price <? 0) = false ->
  exists s,
    calculate_portfolio_escerts rows price = inr s /\
    (Portfolio.market_value_inr_cr s <? 0) = false.
Proof.
  intros Hp. eexists. split; [apply portfolio_value|].
  cbn [Portfolio.market_value_inr_cr].
  now apply abs_mul_div_not_negative.
Qed.

Lemma market_value_never_negative_witness :
  (4000 <? 0) = false /\
  exists s,
    calculate_portfolio_escerts [refinery_C; refinery_B] 4000 = inr s /\
    (Portfolio.market_value_inr_cr s <? 0) = false.
Proof.
  split; [reflexivity|].
  apply (market_value_never_negative [refinery_C; refinery_B] 4000).
  reflexivity.
Defined.

Lemma sums_independent_of_price (p1 p2 : float) (rows : list Row.t) :
  forall g q,
    generated_sum p1 rows g = generated_sum p2 rows g /\
    required_sum p1 rows q = required_sum p2 rows q.
Proof.
  unfold generated_sum, required_sum.
  induction rows as [|row rest IH]; intros g q; [split; reflexivity|].
  cbn [fold_left]. apply IH.
Qed.

(** X6: the certificate quantities do not depend on the price: the two
    totals, the net balance, the surplus flag and the quantity of every
    position are the same at any two prices. *)
Theorem portfolio_quantities_independent_of_price
    (rows : list Row.t) (p1 p2 : float) :
  exists s1 s2,
    calculate_portfolio_escerts rows p1 = inr s1 /\
    calculate_portfolio_escerts rows p2 = inr s2 /\
    Portfolio.total_generated_toe s1 = Portfolio.total_generated_toe s2 /\
    Portfolio.total_required_toe s1 = Portfolio.total_required_toe s2 /\
    Portfolio.net_balance_toe s1 = Portfolio.net_balance_toe s2 /\
    Portfolio.is_surplus s1 = Portfolio.is_surplus s2 /\
    map Position.escerts_toe (Portfolio.positions s1) =
    map Position.escerts_toe (Portfolio.positions s2).
Proof.
  eexists. eexists.
  split; [apply portfolio_value|]. split; [apply portfolio_value|].
  cbn [Portfolio.total_generated_toe Portfolio.total_required_toe
       Portfolio.net_balance_toe Portfolio.is_surplus Portfolio.positions].
  destruct (sums_independent_of_price p1 p2 rows 0 0) as [Hg Hq].
  rewrite Hg, Hq. repeat split.
  rewrite !map_map. reflexivity.
Qed.

(** X7: a batch can be processed in two parts.  The positions of
    [rows1 ++ rows2] are the positions of [rows1] followed by those of
    [rows2], and its totals are the totals of [rows1] carried on through
    [rows2]; the empty table gives zero totals, no surplus and no
    positions. *)
Theorem portfolio_of_concatenation
    (rows1 rows2 : list Row.t) (price : float) :
  (exists s1 s2 s,
     calculate_portfolio_escerts rows1 price = inr s1 /\
     calculate_portfolio_escerts rows2 price = inr s2 /\
     calculate_portfolio_escerts (rows1 ++ rows2) price = inr s /\
     Portfolio.positions s =
       Portfolio.positions s1 ++ Portfolio.positions s2 /\
     Portfolio.total_generated_toe s =
       generated_sum price rows2 (Portfolio.total_generated_toe s1) /\
     Portfolio.total_required_toe s =
       required_sum price rows2 (Portfolio.total_required_toe s1)) /\
  calculate_portfolio_escerts [] price =
    inr (Portfolio.mk 0 0 0 (0 * price / 1e7) false []).
Proof.
  split; [|reflexivity].
  eexists. eexists. eexists.
  split; [apply portfolio_value|]. split; [apply portfolio_value|].
  split; [apply portfolio_value|].
  cbn [Portfolio.positions Portfolio.total_generated_toe
       Portfolio.total_required_toe].
  unfold generated_sum, required_sum.
  rewrite map_app, !fold_left_app. repeat split.
Qed.

(** ** The default model *)

(** X8: with the default coefficients the prediction takes four values,
    one per tier and side of the capacity threshold, and at any capacity
    (NaN included) an entrant of cycle 1 or 2 is predicted a strictly
    larger reduction than a later entrant. *)
Theorem default_model_early_beats_late (c1 c2 : Z) (cap : float) :
  (c1 <= 2)%Z -> (2 < c2)%Z ->
  predict_sec_reduction c1 cap MODEL =
    (if 10 <? cap then 43.300000000000004 else 51.800000000000004) /\
  predict_sec_reduction c2 cap MODEL =
    (if 10 <? cap then -6.300000000000001 else 2.1999999999999997) /\
  (predict_sec_reduction c2 cap MODEL <? predict_sec_reduction c1 cap MODEL)
  = true.
Proof.
  intros H1 H2. unfold predict_sec_reduction.
  rewrite (proj2 (Z.leb_le c1 2) H1), (proj2 (Z.leb_gt c2 2) H2).
  destruct (10 <? cap); repeat split.
Qed.

Lemma default_model_early_beats_late_witness :
  (1 <= 2)%Z /\ (2 < 4)%Z /\
  (predict_sec_reduction 4 10.0 MODEL <? predict_sec_reduction 1 10.0 MODEL)
  = true.
Proof.
  split; [lia|]. split; [lia|].
  apply (default_model_early_beats_late 1 4 10.0); lia.
Defined.

(** ** Inputs that are not numbers *)

(** X9: a NaN throughput or a NaN total energy does not make
    [calculate_sec] raise: for a non-zero baseline it returns NaN for the
    metric, the reduction and the savings, and reports the facility as not
    compliant. *)
Theorem calculate_sec_nan_is_not_compliant
    (total thr base pct util : float) :
  (base =? 0) = false -> (thr =? 0) = false ->
  total = nan \/ thr = nan ->
  exists r,
    calculate_sec total thr base pct util = inr r /\
    SECResult.current_sec r = nan /\
    SECResult.reduction_pct r = nan /\
    SECResult.energy_savings_mmbtu r = nan /\
    SECResult.co2_avoided_tonnes r = nan /\
    SECResult.is_compliant r = false.
Proof.
  intros Hb Ht Hnan.
  assert (Q : total / thr = nan).
  { destruct Hnan as [-> | ->]; [apply nan_div_l | apply nan_div_r]. }
  eexists. split; [now apply calculate_sec_value|].
  cbn [SECResult.current_sec SECResult.reduction_pct
       SECResult.energy_savings_mmbtu SECResult.co2_avoided_tonnes
       SECResult.is_compliant].
  rewrite Q, nan_sub_r, nan_div_l, !nan_mul_l, !py_round_nan, nan_ltb_l.
  repeat split.
Qed.

Lemma calculate_sec_nan_is_not_compliant_witness :
  (8.33 =? 0) = false /\ (nan =? 0) = false /\
  exists r,
    calculate_sec 85000000 nan 8.33 5.0 0.85 = inr r /\
    SECResult.current_sec r = nan /\
    SECResult.reduction_pct r = nan /\
    SECResult.energy_savings_mmbtu r = nan /\
    SECResult.co2_avoided_tonnes r = nan /\
    SECResult.is_compliant r = false.
Proof.
  split; [reflexivity|]. split; [reflexivity|].
  apply (calculate_sec_nan_is_not_compliant 85000000 nan 8.33 5.0 0.85);
    [reflexivity | reflexivity | now right].
Defined.

Lemma row_escerts_nan (price : float) (row : Row.t) :
  Row.current_sec row = nan \/ Row.target_sec row = nan ->
  ESCertResult.is_generator (row_escerts price row) = false /\
  ESCertResult.escerts_toe (row_escerts price row) = nan /\
  ESCertResult.value_inr (row_escerts price row) = nan /\
  ESCertResult.breakeven_sec (row_escerts price row) = None.
Proof.
  intros H. unfold row_escerts, escert_record.
  cbn [ESCertResult.is_generator ESCertResult.escerts_toe
       ESCertResult.value_inr ESCertResult.breakeven_sec].
  assert (Q : Row.target_sec row - Row.current_sec row = nan).
  { destruct H as [-> | ->]; [apply nan_sub_r | apply nan_sub_l]. }
  rewrite Q, nan_ltb_r, nan_ltb_l.
  repeat (rewrite ?nan_mul_l, ?nan_div_l). rewrite !py_round_nan.
  repeat split.
Qed.

Lemma required_sum_nan (price : float) (rows : list Row.t) :
  required_sum price rows nan = nan.
Proof.
  unfold required_sum. induction rows as [|row rest IH]; [reflexivity|].
  cbn [fold_left].
  destruct (ESCertResult.is_generator (row_escerts price row));
    [exact IH | now rewrite nan_add_l].
Qed.

(** X10: one row with a NaN current or target SEC is treated as a buyer
    with no break-even value, and it turns [total_required_toe],
    [net_balance_toe] and [market_value_inr_cr] of the whole portfolio into
    NaN with [is_surplus] false, whatever the other rows are. *)
Theorem portfolio_nan_row_poisons_totals
    (rows1 rows2 : list Row.t) (row : Row.t) (price : float) :
  Row.current_sec row = nan \/ Row.target_sec row = nan ->
  exists s,
    calculate_portfolio_escerts (rows1 ++ row :: rows2) price = inr s /\
    nth_error (Portfolio.positions s) (List.length rows1) =
      Some (Position.mk (Row.refinery row) nan nan) /\
    Portfolio.total_required_toe s = nan /\
    Portfolio.net_balance_toe s = nan /\
    Portfolio.market_value_inr_cr s = nan /\
    Portfolio.is_surplus s = false.
Proof.
  intros H. destruct (row_escerts_nan price row H) as (Hg & He & Hv & _).
  eexists. split; [apply portfolio_value|].
  cbn [Portfolio.positions Portfolio.total_required_toe
       Portfolio.net_balance_toe Portfolio.market_value_inr_cr
       Portfolio.is_surplus].
  assert (Q : required_sum price (rows1 ++ row :: rows2) 0 = nan).
  { unfold required_sum. rewrite fold_left_app. cbn [fold_left].
    rewrite Hg, He. change (abs nan) with nan. rewrite nan_add_r.
    apply required_sum_nan. }
  rewrite Q, nan_sub_r. change (abs nan) with nan.
  rewrite nan_mul_l, nan_div_l, nan_ltb_r.
  split; [|repeat split].
  rewrite nth_error_map, nth_error_app2, Nat.sub_diag by lia.
  cbn [nth_error option_map]. unfold row_position.
  now rewrite He, Hv, nan_div_l.
Qed.

Lemma portfolio_nan_row_poisons_totals_witness :
  Row.current_sec refinery_N = nan /\
  exists s,
    calculate_portfolio_escerts [refinery_A; refinery_N; refinery_C] 4000
      = inr s /\
    Portfolio.total_generated_toe s = 203019 /\
    Portfolio.total_required_toe s = nan /\
    Portfolio.is_surplus s = false.
Proof.
  split; [reflexivity|].
  destruct (portfolio_nan_row_poisons_totals [refinery_A] [refinery_C]
              refinery_N 4000 (or_introl eq_refl))
    as (s & Hs & _ & Hq & _ & _ & Hsur).
  exists s. split; [exact Hs|]. split; [|split; assumption].
  rewrite portfolio_value in Hs. injection Hs as <-. reflexivity.
Defined.

(** ** The batch forecast *)

Lemma map_result_inr {A B : Type} (f : A -> result B) (l : list A) :
  forall out, map_result f l = inr out ->
              Forall2 (fun a b => f a = inr b) l out.
Proof.
  induction l as [|a rest IH]; intros out H; cbn [map_result] in H.
  - injection H as <-. constructor.
  - destruct (f a) as [e|b] eqn:Fa; [discriminate|]. cbn [bind] in H.
    destruct (map_result f rest) as [e|bs]; [discriminate|].
    injection H as <-. constructor; [exact Fa | now apply IH].
Qed.


Section BatchProperties.

Variable rng_state : Type.
Variable mt_init : Z -> rng_state.
Variable np_random_normal :
  float -> float -> Z -> rng_state -> result (list float * rng_state).
Variable np_mean : list bool -> float.
Variable np_percentile : list float -> float -> result float.
Variable np_round : float -> N -> float.
Variable hash : string -> Z.

Local Abbreviation forecast :=
  (forecast_row mt_init np_random_normal np_mean np_percentile np_round hash).
Local Abbreviation batch :=
  (batch_compliance_forecast mt_init np_random_normal np_mean np_percentile
     np_round hash).

(** What an entry takes from its row, whatever the simulation drew. *)
Lemma forecast_row_fields (row : Row.t) (st : rng_state) (f : Forecast.t) :
  observe (forecast row st) = inr f ->
  Forecast.refinery f = Row.refinery row /\
  Forecast.baseline_sec f = Row.baseline_sec row /\
  Forecast.target_sec f = Row.target_sec row /\
  Forecast.predicted_reduction_pct f =
    py_round (predict_sec_reduction (Row.pat_cycle_entry row)
                (Row.capacity_mmtpa row) MODEL) 1 /\
  Forecast.predicted_sec f =
    py_round (Row.baseline_sec row
              * (1 - predict_sec_reduction (Row.pat_cycle_entry row)
                       (Row.capacity_mmtpa row) MODEL / 100)) 2 /\
  In (Forecast.status f) statuses.
Proof.
  unfold forecast_row, sim_bind, lift. rewrite truediv_100. cbn [ret].
  destruct (monte_carlo_compliance _ _ _ _ _ _ _ _ _ _ _)
    as [e|[[[[prob lo] hi] sims] st']]; [discriminate|].
  cbn [sim_ret ret observe]. intros H. injection H as <-.
  cbn [Forecast.refinery Forecast.baseline_sec Forecast.target_sec
       Forecast.predicted_reduction_pct Forecast.predicted_sec
       Forecast.status].
  repeat split.
  destruct (70 <=? prob); [now left|].
  destruct (40 <=? prob); [right; now left | right; right; now left].
Qed.

Lemma batch_is_map (rows : list Row.t) (st : rng_state) :
  observe (batch rows st) =
  map_result (fun row => observe (forecast row st)) rows.
Proof.
  unfold batch_compliance_forecast.
  rewrite (batch_loop_entries rng_state mt_init np_random_normal np_mean
             np_percentile np_round hash rows st).
  now destruct (map_result _ rows).
Qed.

(** X12: when the batch returns, it returns one forecast per row, in the
    order of the rows; each carries the identifier, baseline and target of
    its row, the prediction of the default model for that row rounded to
    one place (and the predicted SEC to two), and one of the three
    statuses. *)
Theorem batch_forecast_follows_rows
    (rows : list Row.t) (st : rng_state) (fs : list Forecast.t) :
  observe (batch rows st) = inr fs ->
  List.length fs = List.length rows /\
  Forall2
    (fun row f =>
       Forecast.refinery f = Row.refinery row /\
       Forecast.baseline_sec f = Row.baseline_sec row /\
       Forecast.target_sec f = Row.target_sec row /\
       Forecast.predicted_reduction_pct f =
         py_round (predict_sec_reduction (Row.pat_cycle_entry row)
                     (Row.capacity_mmtpa row) MODEL) 1 /\
       Forecast.predicted_sec f =
         py_round (Row.baseline_sec row
                   * (1 - predict_sec_reduction (Row.pat_cycle_entry row)
                            (Row.capacity_mmtpa row) MODEL / 100)) 2 /\
       In (Forecast.status f) statuses)
    rows fs.
Proof.
  rewrite batch_is_map. intros H. apply map_result_inr in H.
  split; [symmetry; exact (Forall2_length H)|].
  induction H as [|row f rows' fs' Hf _ IH]; constructor; [|exact IH].
  exact (forecast_row_fields row st f Hf).
Qed.


End BatchProperties.

Lemma batch_forecast_follows_rows_witness :
  exists fs,
    observe (batch_compliance_forecast toy_init toy_normal toy_mean
               toy_percentile (fun x _ => x) toy_hash
               [refinery_A; refinery_D] 0%Z) = inr fs /\
    map Forecast.refinery fs = ["A"; "D"]%string /\
    map Forecast.predicted_reduction_pct fs = [51.8; -6.3].
Proof.
  destruct (observe (batch_compliance_forecast toy_init toy_normal toy_mean
                       toy_percentile (fun x _ => x) toy_hash
                       [refinery_A; refinery_D] 0%Z)) as [e|fs] eqn:E;
    [vm_compute in E; discriminate|].
  exists fs. split; [reflexivity|].
  destruct (batch_forecast_follows_rows Z toy_init toy_normal toy_mean
              toy_percentile (fun x _ => x) toy_hash
              [refinery_A; refinery_D] 0%Z fs E) as [_ F].
  inversion F as [|rA fA rs1 fs1 HA F1]; subst.
  inversion F1 as [|rD fD rs2 fs2 HD F2]; subst.
  inversion F2; subst.
  destruct HA as (HA1 & _ & _ & HA4 & _).
  destruct HD as (HD1 & _ & _ & HD4 & _).
  cbn [map]. rewrite HA1, HD1, HA4, HD4. split; reflexivity.
Defined.


(** ** Signs of the certificate quantities *)

Lemma SFnot_negative_ltb (r : spec_float) :
  SFnot_negative r <-> SFltb r (S754_zero false) = false.
Proof.
  destruct r as [s|[|]| |[|] m e]; cbn; split; intros H;
    try exact I; try reflexivity; try contradiction; discriminate.
Qed.

Lemma SFnot_positive_ltb (r : spec_float) :
  SFnot_positive r <-> SFltb (S754_zero false) r = false.
Proof.
  destruct r as [s|[|]| |[|] m e]; cbn; split; intros H;
    try exact I; try reflexivity; try contradiction; discriminate.
Qed.

Lemma not_negative_spec (x : float) :
  (x <? 0) = false <-> SFnot_negative (Prim2SF x).
Proof.
  rewrite ltb_spec. change (Prim2SF 0) with (S754_zero false).
  symmetry. apply SFnot_negative_ltb.
Qed.

Lemma not_positive_spec (x : float) :
  (0 <? x) = false <-> SFnot_positive (Prim2SF x).
Proof.
  rewrite ltb_spec. change (Prim2SF 0) with (S754_zero false).
  symmetry. apply SFnot_positive_ltb.
Qed.

Lemma binary_round_aux_sign (s : bool) (m e : Z) (l : location) :
  SFsign_ok s (binary_round_aux prec emax s m e l).
Proof.
  unfold binary_round_aux.
  destruct (shr_fexp prec emax m e l) as [mrs' e'].
  destruct (shr_fexp prec emax _ e' loc_Exact) as [mrs'' e''].
  destruct (shr_m mrs''); [now destruct s| |now destruct s].
  now destruct (e'' <=? emax - prec)%Z, s.
Qed.

Lemma binary_round_sign (s : bool) (m : positive) (e : Z) :
  SFsign_ok s (binary_round prec emax s m e).
Proof.
  unfold binary_round. destruct (shl_align _ _ _) as [m' e'].
  apply binary_round_aux_sign.
Qed.

Lemma SFmul_sign (s : bool) (a b : spec_float) :
  SFsign_ok s a -> SFnot_negative b -> SFsign_ok s (SFmul prec emax a b).
Proof.
  destruct a as [sa|sa| |sa ma ea], b as [sb|sb| |sb mb eb];
    cbn [SFmul]; intros Ha Hb; try (now destruct s);
    destruct s, sa, sb; cbn in Ha, Hb |- *; try contradiction; try exact I.
  - apply (binary_round_aux_sign true).
  - apply (binary_round_aux_sign false).
Qed.

Lemma SFdiv_sign (s : bool) (a : spec_float) (m : positive) (e : Z) :
  SFsign_ok s a -> SFsign_ok s (SFdiv prec emax a (S754_finite false m e)).
Proof.
  destruct a as [sa|sa| |sa ma ea]; cbn [SFdiv]; intros Ha;
    try (now destruct s); try (now destruct s, sa).
  destruct (SFdiv_core_binary prec emax (Zpos ma) ea (Zpos m) e)
    as [[mz ez] lz].
  destruct s, sa; cbn in Ha |- *; try contradiction.
  - apply (binary_round_aux_sign true).
  - apply (binary_round_aux_sign false).
Qed.

Lemma SFadd_not_negative (a b : spec_float) :
  SFnot_negative a -> SFnot_negative b ->
  SFnot_negative (SFadd prec emax a b).
Proof.
  destruct a as [sa|[|]| |[|] ma ea], b as [sb|[|]| |[|] mb eb];
    cbn [SFadd SFnot_negative]; intros Ha Hb; try contradiction;
    try exact I; try (now destruct sa); try (now destruct sa, sb).
  cbn [cond_Zopp Z.add binary_normalize].
  apply (binary_round_sign false).
Qed.

(** Reading a number of a given sign back as a primitive float. *)
Lemma of_uint63_not_negative (n : PrimInt63.int) :
  SFnot_negative (Prim2SF (of_uint63 n)).
Proof.
  rewrite of_uint63_spec.
  pose proof (Uint63.to_Z_bounded n) as [H _].
  destruct (Uint63Axioms.to_Z n) as [|p|p]; cbn [binary_normalize];
    [exact I | apply (binary_round_sign false) | lia].
Qed.

Lemma SFldexp_not_negative (r : spec_float) (e : Z) :
  SFnot_negative r -> SFnot_negative (SFldexp prec emax r e).
Proof.
  destruct r as [s|s| |[|] m k]; cbn [SFldexp]; intros H; try exact H.
  - contradiction.
  - apply (binary_round_sign false).
Qed.

Lemma SF2Prim_sign (s : bool) (r : spec_float) :
  SFsign_ok s r -> SFsign_ok s (Prim2SF (SF2Prim r)).
Proof.
  assert (F : forall m e,
             SFnot_negative
               (Prim2SF (Z.ldexp (of_uint63 (Uint63Axioms.of_Z (Zpos m))) e))).
  { intros m e. unfold Z.ldexp. rewrite ldshiftexp_spec.
    apply SFldexp_not_negative, of_uint63_not_negative. }
  destruct r as [[|]|[|]| |[|] m e]; cbn [SF2Prim]; intros H;
    try (destruct s; cbn in H |- *; try contradiction; exact I).
  - rewrite opp_spec. specialize (F m e).
    destruct s; cbn in H; [|contradiction].
    destruct (Prim2SF _) as [x|[|]| |[|] x y]; cbn in F |- *;
      try contradiction; exact I.
  - destruct s; cbn in H; [contradiction|]. apply F.
Qed.

Lemma py_round_sign (s : bool) (x : float) (ndigits : N) :
  SFsign_ok s (Prim2SF x) -> SFsign_ok s (Prim2SF (py_round x ndigits)).
Proof.
  intros H. unfold py_round.
  destruct (NDIGITS_MAX <? ndigits)%N; [exact H|].
  destruct (Prim2SF x) as [sx|sx| |sx m e] eqn:E; rewrite ?E; try exact H.
  assert (Hs : sx = s) by (destruct s, sx; cbn in H; tauto).
  subst sx.
  destruct (round_half_even _ e) as [|q|q]; apply SF2Prim_sign;
    try (now destruct s).
  apply SFdiv_sign. now destruct s.
Qed.

Lemma sign_of_overachievement (o : float) :
  SFsign_ok (negb (0 <? o)) (Prim2SF o).
Proof.
  destruct (0 <? o) eqn:G; cbn [negb SFsign_ok].
  - apply not_negative_spec. now apply ltb_asym.
  - now apply not_positive_spec.
Qed.

Lemma sign_ok_ltb (s : bool) (x : float) :
  SFsign_ok s (Prim2SF x) ->
  if s then (0 <? x) = false else (x <? 0) = false.
Proof.
  destruct s; cbn [SFsign_ok]; intros H;
    [now apply not_positive_spec | now apply not_negative_spec].
Qed.

(** The unrounded quantity and value of [calculate_escerts] have the sign of
    the overachievement, when capacity, utilization and price are not
    negative. *)
Lemma escert_record_signs (cur tgt cap price usd util : float) :
  (cap <? 0) = false -> (util <? 0) = false -> (price <? 0) = false ->
  let r := escert_record cur tgt cap price usd util in
  SFsign_ok (negb (ESCertResult.is_generator r))
    (Prim2SF (ESCertResult.escerts_toe r)) /\
  SFsign_ok (negb (ESCertResult.is_generator r))
    (Prim2SF (ESCertResult.value_inr r)).
Proof.
  intros Hc Hu Hp. cbn zeta.
  cbn [escert_record ESCertResult.is_generator ESCertResult.escerts_toe
       ESCertResult.value_inr].
  set (s := negb (0 <? tgt - cur)).
  assert (Hq : SFsign_ok s
                 (Prim2SF ((tgt - cur) * (cap * 1e6 * util) / MMBTU_TO_TOE))).
  { rewrite div_spec, mul_spec, !mul_spec. unfold SF64div, SF64mul.
    change (Prim2SF MMBTU_TO_TOE)
      with (S754_finite false 5892397162460873 (-47)).
    apply SFdiv_sign, SFmul_sign; [apply sign_of_overachievement|].
    apply (SFmul_sign false); [|now apply not_negative_spec].
    apply (SFmul_sign false); [now apply not_negative_spec|].
    now apply not_negative_spec. }
  split; apply py_round_sign; [exact Hq|].
  rewrite mul_spec. apply SFmul_sign; [exact Hq|].
  now apply not_negative_spec.
Qed.

(** X14: for a capacity, utilization and price that are not negative, a
    generator never gets a negative certificate quantity or value, and a
    facility that is not a generator never gets a positive one. *)
Theorem escerts_quantity_has_sign_of_position
    (cur tgt cap price usd util : float) :
  (usd =? 0) = false ->
  (cap <? 0) = false -> (util <? 0) = false -> (price <? 0) = false ->
  exists r,
    calculate_escerts cur tgt cap price usd util = inr r /\
    (ESCertResult.is_generator r = true ->
     (ESCertResult.escerts_toe r <? 0) = false /\
     (ESCertResult.value_inr r <? 0) = false) /\
    (ESCertResult.is_generator r = false ->
     (0 <? ESCertResult.escerts_toe r) = false /\
     (0 <? ESCertResult.value_inr r) = false).
Proof.
  intros H0 Hc Hu Hp. eexists. split; [now apply calculate_escerts_value|].
  destruct (escert_record_signs cur tgt cap price usd util Hc Hu Hp)
    as [He Hv].
  split; intros G; rewrite G in He, Hv; cbn [negb] in He, Hv;
    split; first [now apply not_negative_spec | now apply not_positive_spec].
Qed.

Lemma escerts_quantity_has_sign_of_position_witness :
  (83.0 =? 0) = false /\ (10.0 <? 0) = false /\ (0.85 <? 0) = false /\
  (4000 <? 0) = false /\
  exists r,
    calculate_escerts 6.5 7.5 10.0 4000 83.0 0.85 = inr r /\
    ESCertResult.is_generator r = true /\
    (ESCertResult.escerts_toe r <? 0) = false.
Proof.
  repeat (split; [reflexivity|]).
  destruct (escerts_quantity_has_sign_of_position 6.5 7.5 10.0 4000 83.0 0.85
              eq_refl eq_refl eq_refl eq_refl) as (r & Hr & Hgen & _).
  exists r. split; [exact Hr|].
  assert (G : ESCertResult.is_generator r = true).
  { rewrite calculate_escerts_value in Hr by reflexivity.
    injection Hr as <-. reflexivity. }
  split; [exact G | exact (proj1 (Hgen G))].
Defined.

Lemma add_not_negative (x y : float) :
  (x <? 0) = false -> (y <? 0) = false -> (x + y <? 0) = false.
Proof.
  rewrite !not_negative_spec, add_spec. apply SFadd_not_negative.
Qed.

Lemma generated_sum_not_negative (price : float) (rows : list Row.t) :
  Forall (fun row => (Row.capacity_mmtpa row <? 0) = false) rows ->
  forall t, (t <? 0) = false -> (generated_sum price rows t <? 0) = false.
Proof.
  unfold generated_sum.
  induction 1 as [|row rest Hrow _ IH]; intros t Ht; [exact Ht|].
  cbn [fold_left]. apply IH.
  destruct (ESCertResult.is_generator (row_escerts price row)) eqn:G;
    [|exact Ht].
  apply add_not_negative; [exact Ht|].
  assert (Hu : (default_utilization <? 0) = false) by reflexivity.
  assert (E : ESCertResult.escerts_toe (row_escerts price row) =
              ESCertResult.escerts_toe
                (escert_record (Row.current_sec row) (Row.target_sec row)
                   (Row.capacity_mmtpa row) 0 default_usd_inr_rate
                   default_utilization)) by reflexivity.
  assert (G0 : ESCertResult.is_generator
                 (escert_record (Row.current_sec row) (Row.target_sec row)
                    (Row.capacity_mmtpa row) 0 default_usd_inr_rate
                    default_utilization) = true) by exact G.
  rewrite E.
  pose proof (escert_record_signs (Row.current_sec row) (Row.target_sec row)
                (Row.capacity_mmtpa row) 0 default_usd_inr_rate
                default_utilization Hrow Hu eq_refl) as [He _].
  cbn zeta in He. rewrite G0 in He. now apply not_negative_spec.
Qed.

(** X15: when no row has a negative capacity, [total_generated_toe] is
    never negative, at any price. *)
Theorem total_generated_not_negative (rows : list Row.t) (price : float) :
  Forall (fun row => (Row.capacity_mmtpa row <? 0) = false) rows ->
  exists s,
    calculate_portfolio_escerts rows price = inr s /\
    (Portfolio.total_generated_toe s <? 0) = false.
Proof.
  intros H. eexists. split; [apply portfolio_value|].
  cbn [Portfolio.total_generated_toe].
  now apply generated_sum_not_negative.
Qed.

Lemma total_generated_not_negative_witness :
  Forall (fun row => (Row.capacity_mmtpa row <? 0) = false)
         [refinery_A; refinery_C] /\
  exists s,
    calculate_portfolio_escerts [refinery_A; refinery_C] 4000 = inr s /\
    (Portfolio.total_generated_toe s <? 0) = false.
Proof.
  assert (H : Forall (fun row => (Row.capacity_mmtpa row <? 0) = false)
                     [refinery_A; refinery_C])
    by (repeat constructor).
  split; [exact H|].
  exact (total_generated_not_negative [refinery_A; refinery_C] 4000 H).
Defined.

(** ** Rows of a batch, one at a time *)

Lemma Forall2_nth_error_left {A B : Type} (R : A -> B -> Prop)
    (l : list A) (l' : list B) :
  Forall2 R l l' ->
  forall i a, nth_error l i = Some a ->
              exists b, nth_error l' i = Some b /\ R a b.
Proof.
  induction 1 as [|x y l l' Hxy _ IH]; intros i a Hi.
  - destruct i; discriminate.
  - destruct i as [|i]; cbn [nth_error] in *.
    + injection Hi as <-. now exists y.
    + now apply IH.
Qed.

Section BatchRows.

Variable rng_state : Type.
Variable mt_init : Z -> rng_state.
Variable np_random_normal :
  float -> float -> Z -> rng_state -> result (list float * rng_state).
Variable np_mean : list bool -> float.
Variable np_percentile : list float -> float -> result float.
Variable np_round : float -> N -> float.
Variable hash : string -> Z.

Local Abbreviation forecast :=
  (forecast_row mt_init np_random_normal np_mean np_percentile np_round hash).
Local Abbreviation batch :=
  (batch_compliance_forecast mt_init np_random_normal np_mean np_percentile
     np_round hash).

(** X11: inside one interpreter process, the forecast of a row in a batch
    is the forecast the row gets in a batch of its own, started from any
    generator state: it depends neither on the rows around it nor on what
    was drawn before. *)
Theorem batch_entry_is_standalone
    (rows : list Row.t) (st st0 : rng_state) (fs : list Forecast.t)
    (i : nat) (row : Row.t) :
  observe (batch rows st) = inr fs ->
  nth_error rows i = Some row ->
  exists f,
    nth_error fs i = Some f /\
    observe (batch [row] st0) = inr [f].
Proof.
  rewrite (batch_is_map rng_state mt_init np_random_normal np_mean
             np_percentile np_round hash rows st).
  intros H Hi. apply map_result_inr in H.
  destruct (Forall2_nth_error_left _ _ _ H i row Hi) as (f & Hf & Hrow).
  exists f. split; [exact Hf|].
  rewrite (batch_is_map rng_state mt_init np_random_normal np_mean
             np_percentile np_round hash [row] st0).
  cbn [map_result].
  rewrite (forecast_row_resets rng_state mt_init np_random_normal np_mean
             np_percentile np_round hash row st0 st).
  now rewrite Hrow.
Qed.

End BatchRows.

Lemma batch_entry_is_standalone_witness :
  exists f,
    nth_error [refinery_A; refinery_C] 1 = Some refinery_C /\
    observe (batch_compliance_forecast toy_init toy_normal toy_mean
               toy_percentile (fun x _ => x) toy_hash [refinery_C] 7%Z)
    = inr [f].
Proof.
  destruct (observe (batch_compliance_forecast toy_init toy_normal toy_mean
                       toy_percentile (fun x _ => x) toy_hash
                       [refinery_A; refinery_C] 0%Z)) as [e|fs] eqn:E;
    [vm_compute in E; discriminate|].
  destruct (batch_entry_is_standalone Z toy_init toy_normal toy_mean
              toy_percentile (fun x _ => x) toy_hash
              [refinery_A; refinery_C] 0%Z 7%Z fs 1 refinery_C E eq_refl)
    as (f & _ & Hf).
  exists f. split; [reflexivity | exact Hf].
Defined.

(** ** Signs of reductions and savings *)

Lemma SFdiv_sign_positive (s : bool) (a b : spec_float) :
  SFsign_ok s a -> SFpositive b -> SFsign_ok s (SFdiv prec emax a b).
Proof.
  destruct b as [sb|[|]| |[|] mb eb]; cbn [SFpositive]; intros Ha Hb;
    try contradiction.
  - destruct a as [sa|sa| |sa ma ea]; cbn [SFdiv]; try (now destruct s);
      now destruct s, sa.
  - now apply SFdiv_sign.
Qed.

Lemma positive_spec (x : float) : (0 <? x) = true -> SFpositive (Prim2SF x).
Proof.
  rewrite ltb_spec. change (Prim2SF 0) with (S754_zero false).
  now destruct (Prim2SF x) as [s|[|]| |[|] m e].
Qed.

Lemma positive_not_negative (x : float) : (0 <? x) = true -> (x <? 0) = false.
Proof. apply ltb_asym. Qed.

(** The three quantities built on [baseline - current]: the percentage
    reduction, the savings at a given volume, and a positive multiple of
    the savings. *)
Lemma gap_signs (base cur vol k : float) :
  (0 <? base) = true -> (vol <? 0) = false -> (k <? 0) = false ->
  SFsign_ok (negb (cur <? base)) (Prim2SF ((base - cur) / base * 100)) /\
  SFsign_ok (negb (cur <? base)) (Prim2SF ((base - cur) * vol)) /\
  SFsign_ok (negb (cur <? base)) (Prim2SF ((base - cur) * vol * k)).
Proof.
  intros Hb Hv Hk.
  rewrite <- (proj1 (ltb_sub cur base)).
  pose proof (sign_of_overachievement (base - cur)) as Hg.
  assert (Hm : SFsign_ok (negb (0 <? base - cur))
                 (Prim2SF ((base - cur) * vol))).
  { rewrite mul_spec. apply SFmul_sign; [exact Hg|].
    now apply not_negative_spec. }
  split; [|split; [exact Hm|]].
  - rewrite mul_spec, div_spec. apply SFmul_sign.
    + apply SFdiv_sign_positive; [exact Hg | now apply positive_spec].
    + now apply not_negative_spec.
  - rewrite mul_spec. apply SFmul_sign; [exact Hm|].
    now apply not_negative_spec.
Qed.

(** X16: for a positive throughput and baseline, the reduction, the energy
    savings and the CO2 avoided that [calculate_sec] returns are never
    negative when the current SEC is below the baseline, and never positive
    otherwise. *)
Theorem calculate_sec_signs (total thr base pct util : float) :
  (0 <? thr) = true -> (0 <? base) = true ->
  exists r,
    calculate_sec total thr base pct util = inr r /\
    ((total / thr <? base) = true ->
     (SECResult.reduction_pct r <? 0) = false /\
     (SECResult.energy_savings_mmbtu r <? 0) = false /\
     (SECResult.co2_avoided_tonnes r <? 0) = false) /\
    ((total / thr <? base) = false ->
     (0 <? SECResult.reduction_pct r) = false /\
     (0 <? SECResult.energy_savings_mmbtu r) = false /\
     (0 <? SECResult.co2_avoided_tonnes r) = false).
Proof.
  intros Ht Hb. eexists. split.
  { apply calculate_sec_value; now apply gtb_not_eqb. }
  cbn [SECResult.reduction_pct SECResult.energy_savings_mmbtu
       SECResult.co2_avoided_tonnes].
  assert (Hc : (CO2_FACTOR <? 0) = false) by reflexivity.
  destruct (gap_signs base (total / thr) thr CO2_FACTOR Hb
              (positive_not_negative _ Ht) Hc) as (H1 & H2 & H3).
  split; intros G; rewrite G in H1, H2, H3; cbn [negb] in H1, H2, H3;
    repeat split;
    first [ apply not_negative_spec; now apply (py_round_sign false)
          | apply not_positive_spec; now apply (py_round_sign true) ].
Qed.

Lemma calculate_sec_signs_witness :
  (0 <? 10000000) = true /\ (0 <? 8.33) = true /\
  exists r,
    calculate_sec 85000000 10000000 8.33 5.0 0.85 = inr r /\
    (0 <? SECResult.reduction_pct r) = false /\
    (0 <? SECResult.energy_savings_mmbtu r) = false.
Proof.
  split; [reflexivity|]. split; [reflexivity|].
  destruct (calculate_sec_signs 85000000 10000000 8.33 5.0 0.85
              eq_refl eq_refl) as (r & Hr & _ & Hneg).
  exists r. split; [exact Hr|].
  destruct (Hneg eq_refl) as (H1 & H2 & _). now split.
Defined.

(** X17: in a derived row with a positive baseline and a capacity that is
    not negative, [sec_reduction_pct], [energy_savings_mmbtu] and
    [co2_avoided_mt] are never negative when the current SEC is below the
    baseline, and never positive otherwise. *)
Theorem derived_savings_signs (r : Refinery.t) :
  (0 <? Refinery.baseline_sec r) = true ->
  (Refinery.capacity_mmtpa r <? 0) = false ->
  let d := derive_row r in
  ((Refinery.current_sec r <? Refinery.baseline_sec r) = true ->
   (Derived.sec_reduction_pct d <? 0) = false /\
   (Derived.energy_savings_mmbtu d <? 0) = false /\
   (Derived.co2_avoided_mt d <? 0) = false) /\
  ((Refinery.current_sec r <? Refinery.baseline_sec r) = false ->
   (0 <? Derived.sec_reduction_pct d) = false /\
   (0 <? Derived.energy_savings_mmbtu d) = false /\
   (0 <? Derived.co2_avoided_mt d) = false).
Proof.
  intros Hb Hc. cbn zeta.
  cbn [derive_row Derived.sec_reduction_pct Derived.energy_savings_mmbtu
       Derived.co2_avoided_mt].
  destruct (gap_signs (Refinery.baseline_sec r) (Refinery.current_sec r)
              (Refinery.capacity_mmtpa r) 1e6 Hb Hc eq_refl)
    as (H1 & _ & H3).
  set (s := negb (Refinery.current_sec r <? Refinery.baseline_sec r)) in *.
  assert (He : SFsign_ok s
                 (Prim2SF ((Refinery.baseline_sec r - Refinery.current_sec r)
                           * Refinery.capacity_mmtpa r * 1e6 * 0.85))).
  { rewrite mul_spec. apply SFmul_sign; [exact H3|].
    now apply not_negative_spec. }
  assert (Ho : SFsign_ok s
                 (Prim2SF ((Refinery.baseline_sec r - Refinery.current_sec r)
                           * Refinery.capacity_mmtpa r * 1e6 * 0.85
                           * CO2_FACTOR / 1e6))).
  { rewrite div_spec.
    apply SFdiv_sign_positive; [|now apply positive_spec].
    rewrite mul_spec. apply SFmul_sign; [exact He|].
    now apply not_negative_spec. }
  unfold s in *.
  split; intros G; rewrite G in H1, He, Ho; cbn [negb] in H1, He, Ho;
    repeat split;
    first [ now apply not_negative_spec | now apply not_positive_spec ].
Qed.

Lemma derived_savings_signs_witness :
  (0 <? 8.8) = true /\ (0.07 <? 0) = false /\ (8.6 <? 8.8) = true /\
  (Derived.energy_savings_mmbtu
     (derive_row (Refinery.mk "ONGC Tatipaka" 0.07 "PSU" 4 8.8 8.6 8.4 2001))
   <? 0) = false.
Proof.
  repeat (split; [reflexivity|]).
  exact (proj1 (proj2 (proj1
           (derived_savings_signs
              (Refinery.mk "ONGC Tatipaka" 0.07 "PSU" 4 8.8 8.6 8.4 2001)
              eq_refl eq_refl) eq_refl))).
Defined.
